(** * dashboard-linter: the tolerant decoders, panel flattening and the
      panel-units rule, embedded from [lint/lint.go] and the panel-units
      rule file. *)

From Stdlib Require Import ZArith NArith Strings.Byte.
From stdpp Require Import gmap strings list fin_maps.

Set Warnings "-register-all".

(** * Go values and control flow *)
Module Go.

(** Go's [[]byte]. *)
Abbreviation bytes := (list byte).

(** Go's [error]; [err.Error()] is the message itself, [nil] is [None]. *)
Definition error := string.

(** What [encoding/json] stores into an [interface{}]: [nil], [bool],
    [float64] (its 64 bits), [string], [[]interface{}] and
    [map[string]interface{}]. *)
Inductive any : Type :=
  | ANil
  | ABool (b : bool)
  | AFloat64 (bits : N)
  | AString (s : string)
  | ASlice (xs : list any)
  | AMap (m : gmap string any).

(** The two run-time panics the embedded code can raise. *)
Inductive panic : Type :=
  | TypeAssertion      (* x.(T) on a value that does not hold a T *)
  | IndexOutOfRange.   (* xs[i] with i >= len(xs) *)

(** A call either returns or panics. *)
Inductive outcome (A : Type) : Type :=
  | Ret (a : A)
  | Panic (why : panic).
Arguments Ret {A} a.
Arguments Panic {A} why.

Definition bind {A B} (m : outcome A) (k : A → outcome B) : outcome B :=
  match m with
  | Ret a => k a
  | Panic why => Panic why
  end.

(** One step of a loop body: go on with a new state, leave the enclosing
    function with a result, or panic. *)
Inductive ctl (R S : Type) : Type :=
  | Next (s : S)
  | Return (r : R)
  | Abort (why : panic).
Arguments Next {R S} s.
Arguments Return {R S} r.
Arguments Abort {R S} why.

(** [for _, x := range xs { body }] threading the state [s]. *)
Fixpoint range {A R S} (xs : list A) (body : S → A → ctl R S) (s : S) : ctl R S :=
  match xs with
  | [] => Next s
  | x :: xs' =>
      match body s x with
      | Next s' => range xs' body s'
      | Return r => Return r
      | Abort why => Abort why
      end
  end.

#[global] Instance outcome_ret : MRet outcome := @Ret.
#[global] Instance outcome_bind : MBind outcome := fun A B k m => bind m k.

End Go.

Export Go.

(** * lint.go *)
Module Lint.

(** [type Severity int] with its [iota] constants. *)
Inductive Severity := Success | Exclude | Warning | Error | Quiet.

Definition Prometheus : string := "prometheus".

Definition Datasource := string.

Section Datasource.
(** [json.Unmarshal(buf, &raw)] at [raw interface{}], and [fmt]'s [%v]. *)
Variable Unmarshal_any : bytes → any + error.
Variable Sprint_v : any → string.

(** [func (d *Datasource) UnmarshalJSON(buf []byte) error]: the receiver
    after the call and the returned error. *)
Definition Datasource_UnmarshalJSON (d : Datasource) (buf : bytes)
    : Datasource * option error :=
  match Unmarshal_any buf with
  | inr err => (d, Some err)
  | inl raw =>
      match raw with
      | ANil => ("", None)
      | AString v => (v, None)
      | AMap v =>
          match v !! "uid" with
          | None =>
              (d, Some "invalid type for field 'datasource': missing uid field")
          | Some uid =>
              match uid with
              | AString uidStr => (uidStr, None)
              | _ => (d, Some "invalid type for field 'datasource': invalid uid field type, should be string")
              end
          end
      | v => (d, Some ("invalid type for field 'datasource': " +:+ Sprint_v v))
      end
  end.
End Datasource.

Record TemplateValue := {
  TemplateValue_Text : string;
  TemplateValue_Value : string;
}.

(** [TemplateOption] embeds [TemplateValue]. *)
Record TemplateOption := {
  TemplateOption_TemplateValue : TemplateValue;
  TemplateOption_Selected : bool;
}.

Record Template := {
  Template_Name : string;
  Template_Label : string;
  Template_Type : string;
  Template_Query : string;
  Template_Datasource : Datasource;
  Template_Multi : bool;
  Template_AllValue : string;
  Template_Current : TemplateValue;
  Template_Options : list TemplateOption;
  Template_Refresh : Z;
}.

(** The local [raw] struct of [Template.UnmarshalJSON]: [Query] is an
    [interface{}]. *)
Record Template_raw := {
  raw_Name : string;
  raw_Label : string;
  raw_Type : string;
  raw_Query : any;
  raw_Datasource : Datasource;
  raw_Multi : bool;
  raw_AllValue : string;
  raw_Current : TemplateValue;
  raw_Options : list TemplateOption;
  raw_Refresh : Z;
}.

(** [t.Name = raw.Name] ... [t.Refresh = raw.Refresh]; [t.Query] is not
    assigned here. *)
Definition Template_assign (t : Template) (raw : Template_raw) : Template :=
  {| Template_Name := raw_Name raw;
     Template_Label := raw_Label raw;
     Template_Type := raw_Type raw;
     Template_Query := Template_Query t;
     Template_Datasource := raw_Datasource raw;
     Template_Multi := raw_Multi raw;
     Template_AllValue := raw_AllValue raw;
     Template_Current := raw_Current raw;
     Template_Options := raw_Options raw;
     Template_Refresh := raw_Refresh raw |}.

(** [t.Query = v] *)
Definition Template_set_Query (t : Template) (v : string) : Template :=
  {| Template_Name := Template_Name t;
     Template_Label := Template_Label t;
     Template_Type := Template_Type t;
     Template_Query := v;
     Template_Datasource := Template_Datasource t;
     Template_Multi := Template_Multi t;
     Template_AllValue := Template_AllValue t;
     Template_Current := Template_Current t;
     Template_Options := Template_Options t;
     Template_Refresh := Template_Refresh t |}.

(** The types whose query is looked at: neither "adhoc" nor "custom". *)
Definition queried (raw : Template_raw) : Prop :=
  raw_Type raw ≠ "adhoc" ∧ raw_Type raw ≠ "custom".

Section Template.
(** [json.Unmarshal(buf, &raw)] at the local [raw] struct.  The call runs
    the [UnmarshalJSON] methods of the field types ([Datasource],
    [TemplateValue] for [Current] and for every option), so it can panic
    where they do. *)
Variable Unmarshal_Template_raw : bytes → outcome (Template_raw + error).
Variable Sprint_v : any → string.

(** [func (t *Template) UnmarshalJSON(buf []byte) error].  The assertion
    [v["query"].(string)] has no [ok] result: it panics when the key is
    absent (the map yields a nil interface) or holds another type. *)
Definition Template_UnmarshalJSON (t : Template) (buf : bytes)
    : outcome (Template * option error) :=
  decoded ← Unmarshal_Template_raw buf;
  match decoded with
  | inr err => Ret (t, Some err)
  | inl raw =>
      let t := Template_assign t raw in
      if bool_decide (Template_Type t ≠ "adhoc") && bool_decide (Template_Type t ≠ "custom")
      then
        match raw_Query raw with
        | AString v => Ret (Template_set_Query t v, None)
        | AMap v =>
            match v !! "query" with
            | Some (AString q) => Ret (Template_set_Query t q, None)
            | _ => Panic TypeAssertion
            end
        | v => Ret (t, Some ("invalid type for field 'query': " +:+ Sprint_v v))
        end
      else Ret (t, None)
  end.
End Template.

Definition TemplateValue_set_Text (t : TemplateValue) (s : string) : TemplateValue :=
  {| TemplateValue_Text := s; TemplateValue_Value := TemplateValue_Value t |}.

Definition TemplateValue_set_Value (t : TemplateValue) (s : string) : TemplateValue :=
  {| TemplateValue_Text := TemplateValue_Text t; TemplateValue_Value := s |}.

(** [x.([]interface{})[0].(string)] for [x] holding the slice [xs]: the
    index panics on an empty slice, the assertion on a first element that
    is not a string. *)
Definition first_string (xs : list any) : outcome string :=
  match xs with
  | [] => Panic IndexOutOfRange
  | AString s :: _ => Ret s
  | _ :: _ => Panic TypeAssertion
  end.

Section TemplateValue.
(** [json.Unmarshal(buf, &raw)] at [raw map[string]interface{}]. *)
Variable Unmarshal_map : bytes → gmap string any + error.
Variable Sprint_v : any → string.

(** [func (t *TemplateValue) UnmarshalJSON(buf []byte) error].  The inner
    result is [inl t'] when the function goes on with receiver [t'], and
    [inr (t', err)] when it returns [err]. *)
Definition TemplateValue_UnmarshalJSON (t : TemplateValue) (buf : bytes)
    : outcome (TemplateValue * option error) :=
  match Unmarshal_map buf with
  | inr err => Ret (t, Some err)
  | inl raw =>
      after_text ←
        match raw !! "text" with
        | Some txt =>
            match txt with
            | AString s => Ret (inl (TemplateValue_set_Text t s))
            | ASlice xs => s ← first_string xs; Ret (inl (TemplateValue_set_Text t s))
            | tt' => Ret (inr (t, "invalid type for field 'text': " +:+ Sprint_v tt'))
            end
        | None => Ret (inl t)
        end;
      match after_text with
      | inr (t, err) => Ret (t, Some err)
      | inl t =>
          match raw !! "value" with
          | Some val =>
              match val with
              | AString s => Ret (TemplateValue_set_Value t s, None)
              | ASlice xs => s ← first_string xs; Ret (TemplateValue_set_Value t s, None)
              | vt => Ret (t, Some ("invalid type for field 'value': " +:+ Sprint_v vt))
              end
          | None => Ret (t, None)
          end
      end
  end.
End TemplateValue.

(** [OverrideProperty] as [lint.go] declares it: both fields are strings. *)
Record OverrideProperty := {
  OverrideProperty_Id : string;
  OverrideProperty_Value : string;
}.

(** The two local [raw] structs of [OverrideProperty.UnmarshalJSON]. *)
Record Property_string := { raw_string_Id : string; raw_string_Value : string }.
Record Property_int := { raw_int_Id : string; raw_int_Value : Z }.

Section OverrideProperty.
Variable Unmarshal_Property_string : bytes → Property_string + error.
Variable Unmarshal_Property_int : bytes → Property_int + error.

(** [func (o *OverrideProperty) UnmarshalJSON(buf []byte) error]: both
    [raw] values are locals, nothing is stored into [o]. *)
Definition OverrideProperty_UnmarshalJSON (o : OverrideProperty) (buf : bytes)
    : OverrideProperty * option error :=
  match Unmarshal_Property_string buf with
  | inr _ =>
      match Unmarshal_Property_int buf with
      | inr _ => (o, None)
      | inl _ => (o, None)
      end
  | inl _ => (o, None)
  end.
End OverrideProperty.

Record Target := {
  Target_Idx : Z;
  Target_Expr : string;
  Target_PanelId : Z;
  Target_RefId : string;
  Target_LegendFormat : string;
}.

Record Defaults := { Defaults_Unit : string }.

Record Override := { Override_OverrideProperties : list OverrideProperty }.

Record FieldConfig := {
  FieldConfig_Defaults : Defaults;
  FieldConfig_Overrides : list Override;
}.

(** A [[]Target] shares its backing array with every copy of the slice
    header, so the arrays live in a store and a panel holds a reference:
    [None] is the nil slice, [Some l] the slice over the array at [l]. *)
Definition loc := positive.
Abbreviation store := (gmap loc (list Target)).

Inductive Panel := {
  Panel_Id : Z;
  Panel_Title : string;
  Panel_Description : string;
  Panel_Targets : option loc;
  Panel_Datasource : Datasource;
  Panel_Type : string;
  Panel_Panels : list Panel;
  Panel_FieldConfig : FieldConfig;
}.

Record Row := { Row_Panels : list Panel }.

Record Dashboard := {
  Dashboard_Title : string;
  Dashboard_Templating_List : list Template;
  Dashboard_Rows : list Row;
  Dashboard_Panels : list Panel;
}.

(** [func (p *Panel) GetPanels() []Panel] *)
Fixpoint Panel_GetPanels (p : Panel) : list Panel :=
  foldl (fun panels panel => panels ++ Panel_GetPanels panel) [p] (Panel_Panels p).

(** [func (r *Row) GetPanels() []Panel] *)
Definition Row_GetPanels (r : Row) : list Panel :=
  foldl (fun panels panel => panels ++ Panel_GetPanels panel) [] (Row_Panels r).

(** The targets a panel sees in a store. *)
Definition Targets_in (σ : store) (pa : Panel) : list Target :=
  match Panel_Targets pa with
  | None => []
  | Some l => default [] (σ !! l)
  end.

(** [len(pa.Targets)] *)
Definition len_Targets (σ : store) (pa : Panel) : nat := length (Targets_in σ pa).

Definition Target_set_Idx (ti : nat) (t : Target) : Target :=
  {| Target_Idx := Z.of_nat ti;
     Target_Expr := Target_Expr t;
     Target_PanelId := Target_PanelId t;
     Target_RefId := Target_RefId t;
     Target_LegendFormat := Target_LegendFormat t |}.

(** [p[pi].Targets[ti].Idx = ti]: one write into the backing array. *)
Definition store_Idx (pa : Panel) (σ : store) (ti : nat) : store :=
  match Panel_Targets pa with
  | None => σ
  | Some l => alter (alter (Target_set_Idx ti) ti) l σ
  end.

(** [for ti := range pa.Targets { p[pi].Targets[ti].Idx = ti }] *)
Definition index_Targets (σ : store) (pa : Panel) : store :=
  foldl (store_Idx pa) σ (seq 0 (len_Targets σ pa)).

(** [func (d *Dashboard) GetPanels() []Panel]: the returned slice and the
    store after the index assignment. *)
Definition Dashboard_GetPanels (d : Dashboard) (σ : store) : list Panel * store :=
  let p := foldl (fun p row => p ++ Row_GetPanels row) [] (Dashboard_Rows d) in
  let p := foldl (fun p panel => p ++ Panel_GetPanels panel) p (Dashboard_Panels d) in
  (p, foldl index_Targets σ p).

(** The traversal in the spec's words: a panel, followed by the depth-first
    pre-order traversals of its nested children, in order. *)
Fixpoint preorder (p : Panel) : list Panel :=
  p :: concat (map preorder (Panel_Panels p)).

(** Row-nested panels first, top-level panels after. *)
Definition rows_then_top_level (d : Dashboard) : list Panel :=
  concat (map (fun r => concat (map preorder (Row_Panels r))) (Dashboard_Rows d))
  ++ concat (map preorder (Dashboard_Panels d)).

Section GetTemplateByType.
(** [strings.EqualFold] *)
Variable EqualFold : string → string → bool.

(** [func (d *Dashboard) GetTemplateByType(t string) []Template] *)
Definition Dashboard_GetTemplateByType (d : Dashboard) (t : string) : list Template :=
  foldl (fun retval templ =>
           if EqualFold (Template_Type templ) t then retval ++ [templ] else retval)
        [] (Dashboard_Templating_List d).
End GetTemplateByType.

(** [nested q p]: [q] is [p] or is reached from [p] through [Panels]. *)
Inductive nested : Panel → Panel → Prop :=
  | nested_self p : nested p p
  | nested_child q c p : c ∈ Panel_Panels p → nested q c → nested q p.

(** The panels a dashboard holds directly: those of its rows, then its own. *)
Definition roots (d : Dashboard) : list Panel :=
  concat (map Row_Panels (Dashboard_Rows d)) ++ Dashboard_Panels d.

(** The shapes a [TemplateValue] field accepts: a string, or an array that
    starts with a string. *)
Definition holds_string (x : any) (s : string) : Prop :=
  x = AString s ∨ ∃ rest, x = ASlice (AString s :: rest).

(** A field after a successful decode: the key is absent and the field is
    as before, or the key holds an accepted shape and the field is its
    string. *)
Definition decoded_field (o : option any) (before after : string) : Prop :=
  (o = None ∧ after = before) ∨ ∃ x, o = Some x ∧ holds_string x after.

(** An array on which the unchecked [[0].(string)] panics. *)
Definition headless (x : any) : Prop :=
  ∃ xs, x = ASlice xs ∧ ∀ s rest, xs ≠ AString s :: rest.

End Lint.

(** * The panel-units rule *)
Module PanelUnits.

(** The rule file reads the panel through a later revision of the model
    than the one [lint.go] declares: [FieldConfig] is a pointer,
    [OverrideProperty.Value] is an [any] (the rule asserts it to a string and
    compares it with [nil]), [Defaults] carries the raw [Mappings] payload
    and [Panel] the raw [Options].  The records below hold the fields the
    rule reads, at the types its code requires. *)
Record OverrideProperty := {
  OverrideProperty_Id : string;
  OverrideProperty_Value : any;
}.

Record Override := { Override_OverrideProperties : list OverrideProperty }.

(** [Mappings] is a [json.RawMessage]: [None] is the nil slice. *)
Record Defaults := {
  Defaults_Unit : string;
  Defaults_Mappings : option bytes;
}.

Record FieldConfig := {
  FieldConfig_Defaults : Defaults;
  FieldConfig_Overrides : list Override;
}.

Record Panel := {
  Panel_Id : Z;
  Panel_Title : string;
  Panel_Description : string;
  Panel_Type : string;
  Panel_Options : bytes;
  Panel_FieldConfig : option FieldConfig;
}.

Abbreviation Dashboard := Lint.Dashboard.

(** Modelled from the spec: [StatOptions] and [ReduceOptions] are declared
    elsewhere in the package; the rule reads [opts.ReduceOptions.Fields],
    the "fields" selector of the panel's reduce-options. *)
Record ReduceOptions := { ReduceOptions_Fields : string }.
Record StatOptions := { StatOptions_ReduceOptions : ReduceOptions }.

(** Modelled from the spec: the panel-type constants are declared
    elsewhere in the package; the spec lists the types the rule operates on as
    "stat", "singlestat", "graph", "table-with-time", "timeseries" and
    "gauge". *)
Definition panelTypeStat : string := "stat".
Definition panelTypeSingleStat : string := "singlestat".
Definition panelTypeGraph : string := "graph".
Definition panelTypeTimeTable : string := "table-with-time".
Definition panelTypeTimeSeries : string := "timeseries".
Definition panelTypeGauge : string := "gauge".

(** Modelled from the spec: [PanelRuleResults] and its [AddError] are
    declared elsewhere in the package; a result is a diagnostic with the
    dashboard, the panel, a severity and a free-text message, and every
    result the rule emits is an error. *)
Record Result := {
  Result_Dashboard : Dashboard;
  Result_Panel : Panel;
  Result_Severity : Lint.Severity;
  Result_Message : string;
}.

Definition PanelRuleResults := list Result.

Definition AddError (r : PanelRuleResults) (d : Dashboard) (p : Panel) (message : string)
    : PanelRuleResults :=
  r ++ [ {| Result_Dashboard := d; Result_Panel := p;
            Result_Severity := Lint.Error; Result_Message := message |} ].

Definition validUnits : list string := [
  (* Scalar *)
  "none";
  (* Misc *)
  "string";
  (* short *)
  "short"; "percent"; "percentunit"; "humidity"; "dB"; "hex0x"; "hex"; "sci"; "locale"; "pixel";
  (* Acceleration *)
  "accMS2"; "accFS2"; "accG";
  (* Angle *)
  "degree"; "radian"; "grad"; "arcmin"; "arcsec";
  (* Area *)
  "areaM2"; "areaF2"; "areaMI2";
  (* Computation *)
  "flops"; "mflops"; "gflops"; "tflops"; "pflops"; "eflops"; "zflops"; "yflops";
  (* Concentration *)
  "ppm"; "conppb"; "conngm3"; "conngNm3"; "conμgm3"; "conμgNm3"; "conmgm3"; "conmgNm3"; "congm3"; "congNm3"; "conmgdL"; "conmmolL";
  (* Currency *)
  "currencyUSD"; "currencyGBP"; "currencyEUR"; "currencyJPY"; "currencyRUB"; "currencyUAH"; "currencyBRL"; "currencyDKK"; "currencyISK"; "currencyNOK"; "currencySEK"; "currencyCZK"; "currencyCHF"; "currencyPLN"; "currencyBTC"; "currencymBTC"; "currencyμBTC"; "currencyZAR"; "currencyINR"; "currencyKRW"; "currencyIDR"; "currencyPHP"; "currencyVND";
  (* Data *)
  "bytes"; "decbytes"; "bits"; "decbits"; "kbytes"; "deckbytes"; "mbytes"; "decmbytes"; "gbytes"; "decgbytes"; "tbytes"; "dectbytes"; "pbytes"; "decpbytes";
  (* Data rate *)
  "pps"; "binBps"; "Bps"; "binbps"; "bps"; "KiBs"; "Kibits"; "KBs"; "Kbits"; "MiBs"; "Mibits"; "MBs"; "Mbits"; "GiBs"; "Gibits"; "GBs"; "Gbits"; "TiBs"; "Tibits"; "TBs"; "Tbits"; "PiBs"; "Pibits"; "PBs"; "Pbits";
  (* Date & time *)
  "dateTimeAsIso"; "dateTimeAsIsoNoDateIfToday"; "dateTimeAsUS"; "dateTimeAsUSNoDateIfToday"; "dateTimeAsLocal";
  (* Datetime local (No date if today) *)
  "dateTimeAsLocalNoDateIfToday"; "dateTimeAsSystem"; "dateTimeFromNow";
  (* Energy *)
  "watt"; "kwatt"; "megwatt"; "gwatt"; "mwatt"; "Wm2"; "voltamp"; "kvoltamp"; "voltampreact"; "kvoltampreact"; "watth"; "watthperkg"; "kwatth"; "kwattm"; "amph"; "kamph"; "mamph"; "joule"; "ev"; "amp"; "kamp"; "mamp"; "volt"; "kvolt"; "mvolt"; "dBm"; "ohm"; "kohm"; "Mohm"; "farad"; "µfarad"; "nfarad"; "pfarad"; "ffarad"; "henry"; "mhenry"; "µhenry"; "lumens";
  (* Flow *)
  "flowgpm"; "flowcms"; "flowcfs"; "flowcfm"; "litreh"; "flowlpm"; "flowmlpm"; "lux";
  (* Force *)
  "forceNm"; "forcekNm"; "forceN"; "forcekN";
  (* Hash rate *)
  "Hs"; "KHs"; "MHs"; "GHs"; "THs"; "PHs"; "EHs";
  (* Mass *)
  "massmg"; "massg"; "masslb"; "masskg"; "masst";
  (* Length *)
  "lengthmm"; "lengthin"; "lengthft"; "lengthm"; "lengthkm"; "lengthmi";
  (* Pressure *)
  "pressurembar"; "pressurebar"; "pressurekbar"; "pressurepa"; "pressurehpa"; "pressurekpa"; "pressurehg"; "pressurepsi";
  (* Radiation *)
  "radbq"; "radci"; "radgy"; "radrad"; "radsv"; "radmsv"; "radusv"; "radrem"; "radexpckg"; "radr"; "radsvh"; "radmsvh"; "radusvh";
  (* Rotational Speed *)
  "rotrpm"; "rothz"; "rotrads"; "rotdegs";
  (* Temperature *)
  "celsius"; "fahrenheit"; "kelvin";
  (* Time *)
  "hertz"; "ns"; "µs"; "ms"; "s"; "m"; "h"; "d"; "dtdurationms"; "dtdurations"; "dthms"; "dtdhms"; "timeticks"; "clockms"; "clocks";
  (* Throughput *)
  "cps"; "ops"; "reqps"; "rps"; "wps"; "iops"; "cpm"; "opm"; "rpm"; "wpm"; "mps"; "mpm";
  (* Velocity *)
  "velocityms"; "velocitykmh"; "velocitymph"; "velocityknot";
  (* Volume *)
  "mlitre"; "litre"; "m3"; "Nm3"; "dm3"; "gallons";
  (* Boolean *)
  "bool"; "bool_yes_no"; "bool_on_off"
]%string.

(** All override properties of a field config, in the order the nested
    loops visit them. *)
Definition properties (fc : FieldConfig) : list OverrideProperty :=
  concat (map Override_OverrideProperties (FieldConfig_Overrides fc)).

(** [x != nil] on an [any]. *)
Definition not_nil (x : any) : bool :=
  match x with
  | ANil => false
  | _ => true
  end.

(** The body of the inner loop of [getConfiguredUnit]; [o.Value.(string)]
    panics on a value that is not a string. *)
Definition unit_property (configuredUnit : string) (o : OverrideProperty) : ctl string string :=
  if bool_decide (OverrideProperty_Id o = "unit") then
    match OverrideProperty_Value o with
    | AString s => Next s
    | _ => Abort TypeAssertion
    end
  else Next configuredUnit.

Definition unit_override (configuredUnit : string) (override : Override) : ctl string string :=
  if bool_decide (0 < length (Override_OverrideProperties override)) then
    range (Override_OverrideProperties override) unit_property configuredUnit
  else Next configuredUnit.

(** [func getConfiguredUnit(p Panel) string] *)
Definition getConfiguredUnit (p : Panel) : outcome string :=
  let configuredUnit := "" in
  let scanned :=
    match Panel_FieldConfig p with
    | Some fc =>
        if bool_decide (0 < length (FieldConfig_Overrides fc)) then
          range (FieldConfig_Overrides fc) unit_override configuredUnit
        else Next configuredUnit
    | None => Next configuredUnit
    end in
  match scanned with
  | Abort why => Panic why
  | Return r => Ret r
  | Next configuredUnit =>
      match Panel_FieldConfig p with
      | Some fc =>
          if bool_decide (configuredUnit = "")
             && bool_decide (Defaults_Unit (FieldConfig_Defaults fc) ≠ "")
          then Ret (Defaults_Unit (FieldConfig_Defaults fc))
          else Ret configuredUnit
      | None => Ret configuredUnit
      end
  end.

(** The body of the inner loop of [getValueMappings]: the first property
    with id "mappings" and a non-nil value leaves the function. *)
Definition mappings_property (_ : unit) (o : OverrideProperty) : ctl (any * option error) unit :=
  if bool_decide (OverrideProperty_Id o = "mappings") && not_nil (OverrideProperty_Value o)
  then Return (OverrideProperty_Value o, None)
  else Next ().

Definition mappings_override (_ : unit) (override : Override) : ctl (any * option error) unit :=
  if bool_decide (0 < length (Override_OverrideProperties override)) then
    range (Override_OverrideProperties override) mappings_property ()
  else Next ().

(** An override property that supplies a unit, and one that supplies a
    mapping. *)
Definition supplies_unit (o : OverrideProperty) : Prop := OverrideProperty_Id o = "unit".

Definition supplies_mappings (o : OverrideProperty) : Prop :=
  OverrideProperty_Id o = "mappings" ∧ OverrideProperty_Value o ≠ ANil.

Section Rule.
(** [json.Unmarshal(data, &valueMappings)] at a nil [any]: the value the
    call leaves in the target and the error it returns.  A call can fail
    and still have stored a value: a syntax error is found before anything
    is stored, but a number that does not fit a float64 is reported after
    the array around it has been stored.  [json.Unmarshal] at
    [StatOptions] is used for its result only when it succeeds. *)
Variable Unmarshal_any : bytes → any * option error.
Variable Unmarshal_StatOptions : bytes → StatOptions + error.

(** [func getValueMappings(p Panel) (any, error)] *)
Definition getValueMappings (p : Panel) : outcome (any * option error) :=
  let valueMappings := ANil in
  let scanned :=
    match Panel_FieldConfig p with
    | Some fc =>
        if bool_decide (0 < length (FieldConfig_Overrides fc)) then
          range (FieldConfig_Overrides fc) mappings_override ()
        else Next ()
    | None => Next ()
    end in
  match scanned with
  | Abort why => Panic why
  | Return r => Ret r
  | Next _ =>
      match Panel_FieldConfig p with
      | Some fc =>
          match Defaults_Mappings (FieldConfig_Defaults fc) with
          | Some raw =>
              let '(valueMappings, err) := Unmarshal_any raw in
              match err with
              | Some err => Ret (valueMappings, Some err)
              | None => Ret (valueMappings, None)
              end
          | None => Ret (valueMappings, None)
          end
      | None => Ret (valueMappings, None)
      end
  end.

(** [func hasReduceOptionsNonNumericFields(reduceOpts *ReduceOptions) bool] *)
Definition hasReduceOptionsNonNumericFields (reduceOpts : ReduceOptions) : bool :=
  bool_decide (ReduceOptions_Fields reduceOpts ≠ "").

(** The stat-only guard: [err == nil && hasReduceOptionsNonNumericFields(...)]. *)
Definition stat_reduces_fields (p : Panel) : bool :=
  bool_decide (Panel_Type p = "stat") &&
  match Unmarshal_StatOptions (Panel_Options p) with
  | inl opts => hasReduceOptionsNonNumericFields (StatOptions_ReduceOptions opts)
  | inr _ => false
  end.

(** The panel types of the rule's [case]. *)
Definition unit_panel_types : list string :=
  [panelTypeStat; panelTypeSingleStat; panelTypeGraph; panelTypeTimeTable;
   panelTypeTimeSeries; panelTypeGauge].

(** The [fn] of [NewPanelUnitsRule]. *)
Definition NewPanelUnitsRule_fn (d : Dashboard) (p : Panel) : outcome PanelRuleResults :=
  let r : PanelRuleResults := [] in
  if bool_decide (Panel_Type p ∈ unit_panel_types) then
    if stat_reduces_fields p then Ret r
    else
      '(valueMappings, err) ← getValueMappings p;
      let r := match err with
               | Some e => AddError r d p e
               | None => r
               end in
      if not_nil valueMappings then Ret r
      else
        configuredUnit ← getConfiguredUnit p;
        if bool_decide (configuredUnit ≠ "")
           && existsb (fun u => bool_decide (u = configuredUnit)) validUnits
        then Ret r
        else Ret (AddError r d p
                    ("has no or invalid units defined: '" +:+ configuredUnit +:+ "'"))
  else Ret r.
End Rule.

(** Modelled from the spec: [PanelRuleFunc] is declared elsewhere in the
    package; a rule is a name, a description and a function from a
    dashboard and a panel to results. *)
Record PanelRuleFunc := {
  name : string;
  description : string;
  fn : Dashboard → Panel → outcome PanelRuleResults;
}.

(** [func NewPanelUnitsRule() *PanelRuleFunc] *)
Definition NewPanelUnitsRule (Unmarshal_any : bytes → any * option error)
    (Unmarshal_StatOptions : bytes → StatOptions + error) : PanelRuleFunc :=
  {| name := "panel-units-rule";
     description := "Checks that each panel uses has valid units defined.";
     fn := NewPanelUnitsRule_fn Unmarshal_any Unmarshal_StatOptions |}.

(** The error result the rule adds for [message]. *)
Definition error_result (d : Dashboard) (p : Panel) (message : string) : Result :=
  {| Result_Dashboard := d; Result_Panel := p;
     Result_Severity := Lint.Error; Result_Message := message |}.

Definition no_units_message (configuredUnit : string) : string :=
  "has no or invalid units defined: '" +:+ configuredUnit +:+ "'".

(** The override properties with id "unit", in scan order. *)
Definition unit_overrides (fc : FieldConfig) : list OverrideProperty :=
  filter (fun o => OverrideProperty_Id o = "unit") (properties fc).

(** What the unit scan leaves when every unit override is a string: the
    value of the last one, or the empty string without any. *)
Definition scanned_unit (fc : FieldConfig) : string :=
  match last (unit_overrides fc) with
  | Some o =>
      match OverrideProperty_Value o with
      | AString v => v
      | _ => ""
      end
  | None => ""
  end.

End PanelUnits.

(** * Sample documents and panels *)
Module Samples.

(** JSON text written with ['] for the double quote. *)
Definition json_text (s : string) : bytes :=
  map (fun b => match b with x27 => x22 | _ => b end) (String.list_byte_of_string s).

(** A stand-in for [json.Unmarshal] that knows one document: [doc] decodes
    to [v], every other input is a syntax error. *)
Definition reads {A} (doc : bytes) (v : A) (buf : bytes) : A + error :=
  if String.eqb (String.string_of_list_byte buf) (String.string_of_list_byte doc)
  then inl v
  else inr "unexpected end of JSON input".

(** A stand-in for [json.Unmarshal] that rejects every input. *)
Definition rejects {A} (buf : bytes) : A + error :=
  inr "invalid character 'x' looking for beginning of value".

(** [json.Unmarshal] at a target whose decoding cannot panic. *)
Definition returning {A} (decoder : bytes → A + error) (buf : bytes) : outcome (A + error) :=
  Ret (decoder buf).

(** A stand-in for [json.Unmarshal] at a nil [any] that knows one document:
    on [doc] it leaves [v] in the target and returns [err]; every other
    input is a syntax error, which leaves the target nil. *)
Definition answers (doc : bytes) (v : any) (err : option error) (buf : bytes)
    : any * option error :=
  if String.eqb (String.string_of_list_byte buf) (String.string_of_list_byte doc)
  then (v, err)
  else (ANil, Some "unexpected end of JSON input").

(** A stand-in for [json.Unmarshal] at a nil [any] that finds a syntax
    error in every input. *)
Definition refuses (buf : bytes) : any * option error :=
  (ANil, Some "invalid character 'x' looking for beginning of value").

Definition show (_ : any) : string := "<value>".

(** The datasource shapes of the round trip: a string, an object with a
    "uid", null, and the number 5 (as the float64 0x4014000000000000). *)
Definition string_document : bytes := json_text "'ds-uid'".
Definition uid_document : bytes := json_text "{'uid': 'ds-uid'}".
Definition uid_value : any := AMap {[ "uid" := AString "ds-uid" ]}.
Definition null_document : bytes := json_text "null".
Definition number_document : bytes := json_text "5".
Definition five : any := AFloat64 0x4014000000000000.

(** The template [{'type': 'query', 'query': {}}]: the "query" object has
    no "query" key. *)
Definition keyless_query_document : bytes := json_text "{'type': 'query', 'query': {}}".
Definition keyless_query_raw : Lint.Template_raw :=
  {| Lint.raw_Name := ""; Lint.raw_Label := ""; Lint.raw_Type := "query";
     Lint.raw_Query := AMap ∅; Lint.raw_Datasource := ""; Lint.raw_Multi := false;
     Lint.raw_AllValue := "";
     Lint.raw_Current := {| Lint.TemplateValue_Text := ""; Lint.TemplateValue_Value := "" |};
     Lint.raw_Options := []; Lint.raw_Refresh := 0 |}.

Definition zero_Template : Lint.Template :=
  {| Lint.Template_Name := ""; Lint.Template_Label := ""; Lint.Template_Type := "";
     Lint.Template_Query := ""; Lint.Template_Datasource := ""; Lint.Template_Multi := false;
     Lint.Template_AllValue := "";
     Lint.Template_Current := {| Lint.TemplateValue_Text := ""; Lint.TemplateValue_Value := "" |};
     Lint.Template_Options := []; Lint.Template_Refresh := 0 |}.

(** The current value [{'text': []}]: the "text" array is empty. *)
Definition empty_text_document : bytes := json_text "{'text': []}".
Definition empty_text_raw : gmap string any := {[ "text" := ASlice [] ]}.

Definition zero_TemplateValue : Lint.TemplateValue :=
  {| Lint.TemplateValue_Text := ""; Lint.TemplateValue_Value := "" |}.

(** One row with two panels and one top-level panel; the arrays in the
    store start with arbitrary indices. *)
Definition target (idx : Z) (expr : string) : Lint.Target :=
  {| Lint.Target_Idx := idx; Lint.Target_Expr := expr; Lint.Target_PanelId := 0;
     Lint.Target_RefId := ""; Lint.Target_LegendFormat := "" |}.

Definition leaf (id : Z) (targets : option Lint.loc) : Lint.Panel :=
  {| Lint.Panel_Id := id; Lint.Panel_Title := ""; Lint.Panel_Description := "";
     Lint.Panel_Targets := targets; Lint.Panel_Datasource := "";
     Lint.Panel_Type := "graph"; Lint.Panel_Panels := [];
     Lint.Panel_FieldConfig :=
       {| Lint.FieldConfig_Defaults := {| Lint.Defaults_Unit := "" |};
          Lint.FieldConfig_Overrides := [] |} |}.

Definition row_dashboard : Lint.Dashboard :=
  {| Lint.Dashboard_Title := "rows";
     Lint.Dashboard_Templating_List := [];
     Lint.Dashboard_Rows :=
       [ {| Lint.Row_Panels := [leaf 1 (Some 1%positive); leaf 2 (Some 2%positive)] |} ];
     Lint.Dashboard_Panels := [leaf 3 (Some 3%positive)] |}.

Definition row_store : gmap Lint.loc (list Lint.Target) :=
  {[ 1%positive := [target 5 "a"; target 5 "b"];
     2%positive := [target 9 "c"];
     3%positive := [target (-1) "d"; target 0 "e"] ]}.

(** Panels for the rule. *)
Definition unit_property (v : string) : PanelUnits.OverrideProperty :=
  {| PanelUnits.OverrideProperty_Id := "unit";
     PanelUnits.OverrideProperty_Value := AString v |}.

Definition mappings_property (v : any) : PanelUnits.OverrideProperty :=
  {| PanelUnits.OverrideProperty_Id := "mappings";
     PanelUnits.OverrideProperty_Value := v |}.

Definition field_config (unit : string) (mappings : option bytes)
    (overrides : list (list PanelUnits.OverrideProperty)) : PanelUnits.FieldConfig :=
  {| PanelUnits.FieldConfig_Defaults :=
       {| PanelUnits.Defaults_Unit := unit; PanelUnits.Defaults_Mappings := mappings |};
     PanelUnits.FieldConfig_Overrides :=
       map (fun props => {| PanelUnits.Override_OverrideProperties := props |}) overrides |}.

Definition panel (type : string) (fc : PanelUnits.FieldConfig) : PanelUnits.Panel :=
  {| PanelUnits.Panel_Id := 1; PanelUnits.Panel_Title := "panel";
     PanelUnits.Panel_Description := ""; PanelUnits.Panel_Type := type;
     PanelUnits.Panel_Options := []; PanelUnits.Panel_FieldConfig := Some fc |}.

(** One unit override "bytes", default unit "short". *)
Definition bytes_over_short : PanelUnits.Panel :=
  panel "gauge" (field_config "short" None [[unit_property "bytes"]]).

(** Unit overrides "bytes" then "short", default unit "none". *)
Definition bytes_then_short : PanelUnits.Panel :=
  panel "gauge" (field_config "none" None [[unit_property "bytes"; unit_property "short"]]).

(** Unit overrides "bytes" then the empty string, default unit "short". *)
Definition bytes_then_empty : PanelUnits.Panel :=
  panel "gauge" (field_config "short" None [[unit_property "bytes"; unit_property ""]]).

(** Unit overrides "percent" and "celsius" in two override entries. *)
Definition percent_then_celsius : PanelUnits.Panel :=
  panel "gauge" (field_config "" None [[unit_property "percent"]; [unit_property "celsius"]]).

Definition first_mapping : any := ASlice [AMap {[ "type" := AString "value" ]}].
Definition second_mapping : any := ASlice [AMap {[ "type" := AString "range" ]}].

(** Unit and mapping overrides mixed over three override entries; the
    first "mappings" property is null. *)
Definition mixed_overrides : PanelUnits.FieldConfig :=
  field_config "" None
    [[unit_property "percent"; mappings_property ANil];
     [mappings_property first_mapping; unit_property "celsius"];
     [mappings_property second_mapping]].

(** A gauge whose default mappings payload is the broken text [{] and
    whose unit is missing. *)
Definition broken_mappings_document : bytes := json_text "{".
Definition broken_mappings : PanelUnits.Panel :=
  panel "gauge" (field_config "" (Some broken_mappings_document) []).


(** [{type: 'gauge', fieldConfig: {defaults: {unit: ...}}}] *)
Definition gauge (unit : string) : PanelUnits.Panel :=
  panel "gauge" (field_config unit None []).

(** A graph whose default mappings payload decodes, with an unknown unit. *)
Definition mappings_document : bytes := json_text "[{'type': 'value'}]".
Definition mapped_graph : PanelUnits.Panel :=
  panel "graph" (field_config "xyz" (Some mappings_document) []).

Definition no_StatOptions : bytes → PanelUnits.StatOptions + error := rejects.

(** The example store with one more array, at 4, that no panel of the
    example dashboard refers to. *)
Definition spare_store : gmap Lint.loc (list Lint.Target) :=
  <[ 4%positive := [target 7 "z"] ]> row_store.

(** The template [{'name': 'job', 'type': 'query', 'query': 5}]. *)
Definition number_query_document : bytes :=
  json_text "{'name': 'job', 'type': 'query', 'query': 5}".
Definition number_query_raw : Lint.Template_raw :=
  {| Lint.raw_Name := "job"; Lint.raw_Label := ""; Lint.raw_Type := "query";
     Lint.raw_Query := five; Lint.raw_Datasource := ""; Lint.raw_Multi := false;
     Lint.raw_AllValue := "";
     Lint.raw_Current := {| Lint.TemplateValue_Text := ""; Lint.TemplateValue_Value := "" |};
     Lint.raw_Options := []; Lint.raw_Refresh := 0 |}.

(** A template decoded earlier, with a query of its own. *)
Definition old_Template : Lint.Template :=
  {| Lint.Template_Name := "old"; Lint.Template_Label := ""; Lint.Template_Type := "query";
     Lint.Template_Query := "up"; Lint.Template_Datasource := ""; Lint.Template_Multi := false;
     Lint.Template_AllValue := "";
     Lint.Template_Current := {| Lint.TemplateValue_Text := ""; Lint.TemplateValue_Value := "" |};
     Lint.Template_Options := []; Lint.Template_Refresh := 0 |}.

Definition bad_text_document : bytes := json_text "{'text': 5, 'value': []}".
Definition bad_text_raw : gmap string any :=
  {[ "text" := five; "value" := ASlice [] ]}.

(** A gauge without field config. *)
Definition bare_gauge : PanelUnits.Panel :=
  {| PanelUnits.Panel_Id := 2; PanelUnits.Panel_Title := "bare";
     PanelUnits.Panel_Description := ""; PanelUnits.Panel_Type := "gauge";
     PanelUnits.Panel_Options := []; PanelUnits.Panel_FieldConfig := None |}.

(** A gauge whose mappings override shadows a broken default payload. *)
Definition shadowed_defaults : PanelUnits.FieldConfig :=
  field_config "" (Some broken_mappings_document) [[mappings_property first_mapping]].

(** A stat panel that reduces over the fields [/^foo$/] and carries a unit
    override that is the number 5. *)
Definition reduce_document : bytes := json_text "{'reduceOptions': {'fields': '/^foo$/'}}".
Definition reduce_options : PanelUnits.StatOptions :=
  {| PanelUnits.StatOptions_ReduceOptions :=
       {| PanelUnits.ReduceOptions_Fields := "/^foo$/" |} |}.
Definition number_unit_property : PanelUnits.OverrideProperty :=
  {| PanelUnits.OverrideProperty_Id := "unit"; PanelUnits.OverrideProperty_Value := five |}.
Definition reducing_stat : PanelUnits.Panel :=
  {| PanelUnits.Panel_Id := 3; PanelUnits.Panel_Title := "stat";
     PanelUnits.Panel_Description := ""; PanelUnits.Panel_Type := "stat";
     PanelUnits.Panel_Options := reduce_document;
     PanelUnits.Panel_FieldConfig := Some (field_config "" None [[number_unit_property]]) |}.

Definition zero_OverrideProperty : Lint.OverrideProperty :=
  {| Lint.OverrideProperty_Id := ""; Lint.OverrideProperty_Value := "" |}.

End Samples.

(** * Decoders of lint.go *)
Section DatasourceFacts.
Import Lint.
Variable Unmarshal_any : bytes → any + error.
Variable Sprint_v : any → string.

Local Abbreviation decode := (Datasource_UnmarshalJSON Unmarshal_any Sprint_v).

Lemma Datasource_syntax_error d buf err :
  Unmarshal_any buf = inr err → decode d buf = (d, Some err).
Proof. intros H. unfold Datasource_UnmarshalJSON. by rewrite H. Qed.

(** C5: a Datasource decodes from exactly three shapes: null gives the
    empty string, a string gives itself, an object with a string "uid"
    gives that uid; every other decoded shape is a decode error and leaves
    the receiver as it was. *)
Theorem Datasource_UnmarshalJSON_shapes (d : Datasource) (buf : bytes) (raw : any) :
  Unmarshal_any buf = inl raw →
  (raw = ANil → decode d buf = ("", None)) ∧
  (∀ s, raw = AString s → decode d buf = (s, None)) ∧
  (∀ m uid, raw = AMap m → m !! "uid" = Some (AString uid) →
     decode d buf = (uid, None)) ∧
  (raw ≠ ANil → (∀ s, raw ≠ AString s) →
   (∀ m uid, raw = AMap m → m !! "uid" ≠ Some (AString uid)) →
     ∃ err, decode d buf = (d, Some err)).
Proof.
  intros Hraw. unfold Datasource_UnmarshalJSON. rewrite Hraw.
  repeat split.
  - by intros ->.
  - by intros s ->.
  - intros m uid -> Huid. by rewrite Huid.
  - intros Hnil Hstr Hmap.
    destruct raw as [ | b | bits | s | xs | m ]; eauto.
    + congruence.
    + by destruct (Hstr s).
    + destruct (m !! "uid") as [uid|] eqn:Huid; [|eauto].
      destruct uid; eauto. by destruct (Hmap m s).
Qed.
End DatasourceFacts.

Lemma Datasource_UnmarshalJSON_round_trip_witness :
  Lint.Datasource_UnmarshalJSON (Samples.reads Samples.string_document (AString "ds-uid"))
    Samples.show "old" Samples.string_document = ("ds-uid", None) ∧
  Lint.Datasource_UnmarshalJSON (Samples.reads Samples.uid_document Samples.uid_value)
    Samples.show "old" Samples.uid_document = ("ds-uid", None) ∧
  Lint.Datasource_UnmarshalJSON (Samples.reads Samples.null_document ANil)
    Samples.show "old" Samples.null_document = ("", None) ∧
  ∃ err,
    Lint.Datasource_UnmarshalJSON (Samples.reads Samples.number_document Samples.five)
      Samples.show "old" Samples.number_document = ("old", Some err).
Proof.
  split; [|split; [|split]].
  - destruct (Datasource_UnmarshalJSON_shapes
                (Samples.reads Samples.string_document (AString "ds-uid")) Samples.show
                "old" Samples.string_document (AString "ds-uid") eq_refl)
      as (_ & Hstring & _ & _).
    exact (Hstring "ds-uid" eq_refl).
  - destruct (Datasource_UnmarshalJSON_shapes
                (Samples.reads Samples.uid_document Samples.uid_value) Samples.show
                "old" Samples.uid_document Samples.uid_value eq_refl)
      as (_ & _ & Hobject & _).
    exact (Hobject _ "ds-uid" eq_refl eq_refl).
  - destruct (Datasource_UnmarshalJSON_shapes
                (Samples.reads Samples.null_document ANil) Samples.show
                "old" Samples.null_document ANil eq_refl)
      as (Hnull & _ & _ & _).
    exact (Hnull eq_refl).
  - destruct (Datasource_UnmarshalJSON_shapes
                (Samples.reads Samples.number_document Samples.five) Samples.show
                "old" Samples.number_document Samples.five eq_refl)
      as (_ & _ & _ & Hother).
    apply Hother; discriminate.
Defined.

Section TemplateFacts.
Import Lint.
Variable Unmarshal_Template_raw : bytes → outcome (Template_raw + error).
Variable Sprint_v : any → string.

Local Abbreviation decode := (Template_UnmarshalJSON Unmarshal_Template_raw Sprint_v).

Lemma queried_guard t raw :
  queried raw →
  bool_decide (Template_Type (Template_assign t raw) ≠ "adhoc")
  && bool_decide (Template_Type (Template_assign t raw) ≠ "custom") = true.
Proof.
  intros [Ha Hc]. simpl.
  by rewrite !bool_decide_eq_true_2.
Qed.

(** A JSON string is used verbatim. *)
Lemma Template_query_string t buf raw v :
  Unmarshal_Template_raw buf = Ret (inl raw) → queried raw → raw_Query raw = AString v →
  decode t buf = Ret (Template_set_Query (Template_assign t raw) v, None).
Proof.
  intros Hraw Hq Hv. unfold Template_UnmarshalJSON.
  rewrite Hraw. cbn [mbind outcome_bind bind]. by rewrite (queried_guard t raw Hq), Hv.
Qed.

(** A JSON object yields the string under its "query" key. *)
Lemma Template_query_object t buf raw m q :
  Unmarshal_Template_raw buf = Ret (inl raw) → queried raw → raw_Query raw = AMap m →
  m !! "query" = Some (AString q) →
  decode t buf = Ret (Template_set_Query (Template_assign t raw) q, None).
Proof.
  intros Hraw Hq Hv Hm. unfold Template_UnmarshalJSON.
  rewrite Hraw. cbn [mbind outcome_bind bind]. by rewrite (queried_guard t raw Hq), Hv, Hm.
Qed.

(** Every shape that is neither a string nor an object is a decode error. *)
Lemma Template_query_other_shape t buf raw :
  Unmarshal_Template_raw buf = Ret (inl raw) → queried raw →
  (∀ v, raw_Query raw ≠ AString v) → (∀ m, raw_Query raw ≠ AMap m) →
  ∃ err, decode t buf = Ret (Template_assign t raw, Some err).
Proof.
  intros Hraw Hq Hs Hm. unfold Template_UnmarshalJSON.
  rewrite Hraw. cbn [mbind outcome_bind bind]. rewrite (queried_guard t raw Hq).
  destruct (raw_Query raw) as [ | b | bits | s | xs | m ] eqn:E; eauto.
  - by destruct (Hs s).
  - by destruct (Hm m).
Qed.

(** For "adhoc" and "custom" the query is not looked at and [Query] keeps
    the receiver's value. *)
Lemma Template_adhoc_custom t buf raw :
  Unmarshal_Template_raw buf = Ret (inl raw) →
  raw_Type raw = "adhoc" ∨ raw_Type raw = "custom" →
  decode t buf = Ret (Template_assign t raw, None) ∧
  Template_Query (Template_assign t raw) = Template_Query t.
Proof.
  intros Hraw Hty. unfold Template_UnmarshalJSON. rewrite Hraw. simpl.
  split; [|done].
  destruct Hty as [-> | ->]; reflexivity.
Qed.

(** C4: for a template whose type is neither "adhoc" nor "custom" and
    whose query is a JSON object without a string under "query" (the key
    absent or holding another type), [Template.UnmarshalJSON] does not
    return a decode error: the unchecked assertion [v["query"].(string)]
    panics. *)
Theorem Template_UnmarshalJSON_object_query_panics
    (t : Template) (buf : bytes) (raw : Template_raw) (m : gmap string any) :
  Unmarshal_Template_raw buf = Ret (inl raw) →
  raw_Type raw ≠ "adhoc" → raw_Type raw ≠ "custom" →
  raw_Query raw = AMap m →
  (∀ q, m !! "query" ≠ Some (AString q)) →
  decode t buf = Panic TypeAssertion.
Proof.
  intros Hraw Ha Hc Hv Hm. unfold Template_UnmarshalJSON.
  rewrite Hraw. cbn [mbind outcome_bind bind]. rewrite (queried_guard t raw (conj Ha Hc)), Hv.
  destruct (m !! "query") as [[ | | | q | | ]|] eqn:E; try reflexivity.
  by destruct (Hm q).
Qed.
End TemplateFacts.

Lemma Template_UnmarshalJSON_keyless_query_witness :
  Lint.Template_UnmarshalJSON
    (Samples.returning (Samples.reads Samples.keyless_query_document Samples.keyless_query_raw)) Samples.show
    Samples.zero_Template Samples.keyless_query_document = Panic TypeAssertion.
Proof.
  apply (Template_UnmarshalJSON_object_query_panics
           (Samples.returning (Samples.reads Samples.keyless_query_document Samples.keyless_query_raw))
           Samples.show Samples.zero_Template Samples.keyless_query_document
           Samples.keyless_query_raw ∅).
  - reflexivity.
  - discriminate.
  - discriminate.
  - reflexivity.
  - intros q. rewrite lookup_empty. discriminate.
Defined.

Section TemplateValueFacts.
Import Lint.
Variable Unmarshal_map : bytes → gmap string any + error.
Variable Sprint_v : any → string.

Local Abbreviation decode := (TemplateValue_UnmarshalJSON Unmarshal_map Sprint_v).

Lemma first_string_head xs s rest : xs = AString s :: rest → first_string xs = Ret s.
Proof. by intros ->. Qed.

Lemma first_string_panics xs :
  (∀ s rest, xs ≠ AString s :: rest) →
  first_string xs = Panic (match xs with [] => IndexOutOfRange | _ => TypeAssertion end).
Proof.
  intros H. destruct xs as [|[ | | | s | | ] rest]; simpl; try reflexivity.
  by destruct (H s rest).
Qed.

(** Absent keys leave both fields as they were, without error. *)
Lemma TemplateValue_absent_keys t buf raw :
  Unmarshal_map buf = inl raw → raw !! "text" = None → raw !! "value" = None →
  decode t buf = Ret (t, None).
Proof.
  intros Hraw Ht Hv. unfold TemplateValue_UnmarshalJSON.
  by rewrite Hraw, Ht; simpl; rewrite Hv.
Qed.

(** A string, or an array that starts with a string, is accepted. *)
Lemma TemplateValue_text_accepted t buf raw txt s :
  Unmarshal_map buf = inl raw → raw !! "text" = Some txt → raw !! "value" = None →
  txt = AString s ∨ (∃ rest, txt = ASlice (AString s :: rest)) →
  decode t buf = Ret (TemplateValue_set_Text t s, None).
Proof.
  intros Hraw Ht Hv Hshape. unfold TemplateValue_UnmarshalJSON.
  rewrite Hraw, Ht.
  destruct Hshape as [-> | [rest ->]]; simpl; by rewrite Hv.
Qed.

(** A shape that is neither a string nor an array is a decode error. *)
Lemma TemplateValue_text_other_shape t buf raw txt :
  Unmarshal_map buf = inl raw → raw !! "text" = Some txt →
  (∀ s, txt ≠ AString s) → (∀ xs, txt ≠ ASlice xs) →
  ∃ err, decode t buf = Ret (t, Some err).
Proof.
  intros Hraw Ht Hs Hx. unfold TemplateValue_UnmarshalJSON.
  rewrite Hraw, Ht.
  destruct txt as [ | b | bits | s | xs | m ]; simpl; eauto.
  - by destruct (Hs s).
  - by destruct (Hx xs).
Qed.

(** The same unchecked conversion guards the "value" key. *)
Lemma TemplateValue_value_array_panics t buf raw xs :
  Unmarshal_map buf = inl raw → raw !! "text" = None →
  raw !! "value" = Some (ASlice xs) →
  (∀ s rest, xs ≠ AString s :: rest) →
  decode t buf = Panic (match xs with [] => IndexOutOfRange | _ => TypeAssertion end).
Proof.
  intros Hraw Ht Hv Hxs. unfold TemplateValue_UnmarshalJSON.
  rewrite Hraw, Ht; simpl; rewrite Hv.
  by rewrite (first_string_panics xs Hxs).
Qed.

(** C9: when the "text" key holds a JSON array that does not start with a
    string (the array is empty, or its first element has another type),
    [TemplateValue.UnmarshalJSON] does not return a decode error: the
    unchecked [txt.([]interface{})[0].(string)] panics, with an index out
    of range on the empty array and a failed type assertion otherwise. *)
Theorem TemplateValue_UnmarshalJSON_text_array_panics
    (t : TemplateValue) (buf : bytes) (raw : gmap string any) (xs : list any) :
  Unmarshal_map buf = inl raw →
  raw !! "text" = Some (ASlice xs) →
  (∀ s rest, xs ≠ AString s :: rest) →
  decode t buf = Panic (match xs with [] => IndexOutOfRange | _ => TypeAssertion end).
Proof.
  intros Hraw Ht Hxs. unfold TemplateValue_UnmarshalJSON.
  rewrite Hraw, Ht.
  by rewrite (first_string_panics xs Hxs).
Qed.
End TemplateValueFacts.

Lemma TemplateValue_UnmarshalJSON_empty_text_witness :
  Lint.TemplateValue_UnmarshalJSON
    (Samples.reads Samples.empty_text_document Samples.empty_text_raw) Samples.show
    Samples.zero_TemplateValue Samples.empty_text_document = Panic IndexOutOfRange.
Proof.
  apply (TemplateValue_UnmarshalJSON_text_array_panics
           (Samples.reads Samples.empty_text_document Samples.empty_text_raw)
           Samples.show Samples.zero_TemplateValue Samples.empty_text_document
           Samples.empty_text_raw []).
  - reflexivity.
  - reflexivity.
  - discriminate.
Defined.

Section OverridePropertyFacts.
Import Lint.
Variable Unmarshal_Property_string : bytes → Property_string + error.
Variable Unmarshal_Property_int : bytes → Property_int + error.

(** C10: decoding an OverrideProperty returns no error for any input
    bytes, whatever the two attempted decodes answer, and leaves the
    receiver untouched: started from the zero value it ends with Id and
    Value both empty. *)
Theorem OverrideProperty_UnmarshalJSON_inert (buf : bytes) :
  (∀ o, OverrideProperty_UnmarshalJSON
          Unmarshal_Property_string Unmarshal_Property_int o buf = (o, None)) ∧
  OverrideProperty_UnmarshalJSON
    Unmarshal_Property_string Unmarshal_Property_int Samples.zero_OverrideProperty buf
  = ({| OverrideProperty_Id := ""; OverrideProperty_Value := "" |}, None).
Proof.
  assert (∀ o, OverrideProperty_UnmarshalJSON
                 Unmarshal_Property_string Unmarshal_Property_int o buf = (o, None)) as H.
  { intros o. unfold OverrideProperty_UnmarshalJSON.
    destruct (Unmarshal_Property_string buf); [done|].
    by destruct (Unmarshal_Property_int buf). }
  split; [exact H | apply H].
Qed.
End OverridePropertyFacts.

(** * Flattening *)
Section Flattening.
Import Lint.

(** Induction on a panel with the hypothesis available for every child. *)
Lemma Panel_forall_ind (P : Panel → Prop) :
  (∀ p, Forall P (Panel_Panels p) → P p) → ∀ p, P p.
Proof.
  intros step. fix IH 1. intros [id title descr targets ds ty children fc].
  apply step. simpl.
  induction children as [|c children IHchildren]; constructor.
  - apply IH.
  - apply IHchildren.
Qed.

(** A loop that appends [f x] for each [x] builds the concatenation. *)
Lemma foldl_append {A B} (f : A → list B) (xs : list A) (acc : list B) :
  foldl (fun acc x => acc ++ f x) acc xs = acc ++ concat (map f xs).
Proof.
  revert acc. induction xs as [|x xs IH]; intros acc; simpl.
  - by rewrite app_nil_r.
  - by rewrite IH, app_assoc.
Qed.

Lemma Panel_GetPanels_unfold p :
  Panel_GetPanels p = p :: concat (map Panel_GetPanels (Panel_Panels p)).
Proof. destruct p. simpl. by rewrite foldl_append. Qed.

Lemma Panel_GetPanels_preorder p : Panel_GetPanels p = preorder p.
Proof.
  induction p as [p IH] using Panel_forall_ind.
  rewrite Panel_GetPanels_unfold. destruct p as [? ? ? ? ? ? children ?].
  simpl in *. f_equal. f_equal.
  induction IH as [|c children Hc _ IHchildren]; simpl; [done|].
  by rewrite Hc, IHchildren.
Qed.

Lemma Row_GetPanels_preorder r :
  Row_GetPanels r = concat (map preorder (Row_Panels r)).
Proof.
  unfold Row_GetPanels. rewrite foldl_append. simpl. f_equal.
  induction (Row_Panels r) as [|c cs IH]; simpl; [done|].
  by rewrite Panel_GetPanels_preorder, IH.
Qed.

Lemma Dashboard_GetPanels_order d σ :
  (Dashboard_GetPanels d σ).1 = rows_then_top_level d.
Proof.
  unfold Dashboard_GetPanels, rows_then_top_level. simpl.
  rewrite !foldl_append. simpl. f_equal.
  - induction (Dashboard_Rows d) as [|r rs IH]; simpl; [done|].
    by rewrite Row_GetPanels_preorder, IH.
  - induction (Dashboard_Panels d) as [|c cs IH]; simpl; [done|].
    by rewrite Panel_GetPanels_preorder, IH.
Qed.

(** The index loop on one array: after the first [k] rounds the first [k]
    elements carry their position. *)
Lemma index_rounds_lookup (ts : list Target) (k i : nat) :
  foldl (fun ts ti => alter (Target_set_Idx ti) ti ts) ts (seq 0 k) !! i
  = if bool_decide (i < k) then Target_set_Idx i <$> ts !! i else ts !! i.
Proof.
  induction k as [|k IH].
  - reflexivity.
  - rewrite seq_S, foldl_app. simpl.
    destruct (decide (i = k)) as [->|Hne].
    + rewrite list_lookup_alter_eq, IH.
      rewrite bool_decide_eq_false_2 by lia.
      by rewrite bool_decide_eq_true_2 by lia.
    + rewrite list_lookup_alter_ne by done. rewrite IH.
      destruct (decide (i < k)).
      * by rewrite !bool_decide_eq_true_2 by lia.
      * by rewrite !bool_decide_eq_false_2 by lia.
Qed.

Lemma index_rounds (ts : list Target) :
  foldl (fun ts ti => alter (Target_set_Idx ti) ti ts) ts (seq 0 (length ts))
  = imap Target_set_Idx ts.
Proof.
  apply list_eq. intros i. rewrite index_rounds_lookup, list_lookup_imap.
  case_bool_decide as Hi; [done|].
  rewrite lookup_ge_None_2 by lia. done.
Qed.

Lemma Target_set_Idx_twice i t :
  Target_set_Idx i (Target_set_Idx i t) = Target_set_Idx i t.
Proof. reflexivity. Qed.

Lemma imap_set_Idx_twice ts :
  imap Target_set_Idx (imap Target_set_Idx ts) = imap Target_set_Idx ts.
Proof.
  apply list_eq. intros i. rewrite !list_lookup_imap.
  by destruct (ts !! i).
Qed.

(** The writes of the inner loop, collected on the array of the panel. *)
Lemma store_Idx_rounds (l : loc) (k : nat) (σ : store) :
  foldl (fun σ ti => alter (alter (Target_set_Idx ti) ti) l σ) σ (seq 0 k)
  = alter (fun ts => foldl (fun ts ti => alter (Target_set_Idx ti) ti ts) ts (seq 0 k)) l σ.
Proof.
  induction k as [|k IH].
  - simpl. apply map_eq. intros j. rewrite lookup_alter.
    case_decide; [subst|done]. by destruct (σ !! j).
  - rewrite seq_S, foldl_app. simpl. rewrite IH.
    apply map_eq. intros j.
    destruct (decide (l = j)) as [->|Hne].
    + rewrite !lookup_alter_eq.
      destruct (σ !! j) as [ts|]; simpl; [|done].
      by rewrite foldl_app.
    + by rewrite !lookup_alter_ne.
Qed.

Lemma index_Targets_alter σ pa :
  index_Targets σ pa =
  match Panel_Targets pa with
  | None => σ
  | Some l => alter (imap Target_set_Idx) l σ
  end.
Proof.
  unfold index_Targets, len_Targets, Targets_in, store_Idx.
  destruct (Panel_Targets pa) as [l|]; [|reflexivity].
  rewrite store_Idx_rounds.
  apply map_eq. intros j. rewrite !lookup_alter.
  case_decide; [subst|done].
  destruct (σ !! j) as [ts|]; simpl; [|done].
  by rewrite index_rounds.
Qed.

(** What another panel sees after one panel has been indexed: its targets
    as they were, or re-indexed when it shares the array. *)
Lemma Targets_in_index_Targets σ pa pb :
  (Panel_Targets pa = Panel_Targets pb →
     Targets_in (index_Targets σ pa) pb = imap Target_set_Idx (Targets_in σ pb)) ∧
  (Targets_in (index_Targets σ pa) pb = Targets_in σ pb ∨
   Targets_in (index_Targets σ pa) pb = imap Target_set_Idx (Targets_in σ pb)).
Proof.
  rewrite index_Targets_alter. unfold Targets_in.
  destruct (Panel_Targets pa) as [la|], (Panel_Targets pb) as [lb|];
    simpl; try (split; [intros; try discriminate|]; auto; fail).
  rewrite lookup_alter. case_decide as Hl.
  - subst. destruct (σ !! lb); simpl; auto.
  - split; [|auto]. intros [=]. done.
Qed.

Lemma Targets_in_foldl_index_Targets ps : ∀ σ pb,
  ((∃ pa, pa ∈ ps ∧ Panel_Targets pa = Panel_Targets pb) →
     Targets_in (foldl index_Targets σ ps) pb = imap Target_set_Idx (Targets_in σ pb)) ∧
  (Targets_in (foldl index_Targets σ ps) pb = Targets_in σ pb ∨
   Targets_in (foldl index_Targets σ ps) pb = imap Target_set_Idx (Targets_in σ pb)).
Proof.
  induction ps as [|pa ps IH]; intros σ pb; simpl.
  - split; [|auto]. intros (pa & Hin & _). by apply elem_of_nil in Hin.
  - destruct (IH (index_Targets σ pa) pb) as [IHin IHany].
    destruct (Targets_in_index_Targets σ pa pb) as [Hsame Hany].
    split.
    + intros (pa' & Hin & Heq). apply elem_of_cons in Hin as [->|Hin].
      * specialize (Hsame Heq).
        destruct IHany as [-> | ->]; rewrite Hsame; [done|].
        apply imap_set_Idx_twice.
      * rewrite IHin by eauto.
        destruct Hany as [-> | ->]; [done|]. apply imap_set_Idx_twice.
    + destruct IHany as [-> | ->], Hany as [-> | ->]; auto.
      right. apply imap_set_Idx_twice.
Qed.

(** C8: flattening a dashboard returns the depth-first pre-order traversal
    of the row-nested panels followed by that of the top-level panels, and
    afterwards every returned panel has as many targets as before and each
    of them carries its zero-based position in that panel's target list as
    index, its other fields unchanged. *)
Theorem Dashboard_GetPanels_flattens (d : Dashboard) (σ : store) :
  (Dashboard_GetPanels d σ).1 = rows_then_top_level d ∧
  ∀ pa, pa ∈ (Dashboard_GetPanels d σ).1 →
    length (Targets_in (Dashboard_GetPanels d σ).2 pa) = length (Targets_in σ pa) ∧
    ∀ ti t, Targets_in σ pa !! ti = Some t →
      ∃ t', Targets_in (Dashboard_GetPanels d σ).2 pa !! ti = Some t' ∧
            Target_Idx t' = Z.of_nat ti ∧
            Target_Expr t' = Target_Expr t ∧
            Target_PanelId t' = Target_PanelId t ∧
            Target_RefId t' = Target_RefId t ∧
            Target_LegendFormat t' = Target_LegendFormat t.
Proof.
  split; [apply Dashboard_GetPanels_order|].
  intros pa Hin. unfold Dashboard_GetPanels in *. simpl in *.
  destruct (Targets_in_foldl_index_Targets
              (foldl (fun p panel => p ++ Panel_GetPanels panel)
                 (foldl (fun p row => p ++ Row_GetPanels row) [] (Dashboard_Rows d))
                 (Dashboard_Panels d)) σ pa) as [Hidx _].
  rewrite Hidx by eauto. split; [apply length_imap|].
  intros ti t Hti. exists (Target_set_Idx ti t).
  rewrite list_lookup_imap, Hti. by repeat split.
Qed.
End Flattening.

(** The dashboard of the example: three panels, row panels first, every
    target list indexed from 0. *)
Example Dashboard_GetPanels_row_example :
  let '(ps, σ) := Lint.Dashboard_GetPanels Samples.row_dashboard Samples.row_store in
  ps = [Samples.leaf 1 (Some 1%positive); Samples.leaf 2 (Some 2%positive);
        Samples.leaf 3 (Some 3%positive)] ∧
  map (fun pa => map Lint.Target_Idx (Lint.Targets_in σ pa)) ps
  = [[0; 1]; [0]; [0; 1]]%Z.
Proof. vm_compute. split; reflexivity. Qed.

(** * The panel-units rule *)
(** Goals about the members of a literal list. *)
Ltac each_member H :=
  repeat (apply elem_of_cons in H as [->|H]);
  try (by apply elem_of_nil in H).

Section Loops.
Context {A R S : Type}.

Lemma range_guard (xs : list A) (body : S → A → ctl R S) (s : S) :
  (if bool_decide (0 < length xs) then range xs body s else Next s) = range xs body s.
Proof. destruct xs; reflexivity. Qed.

Lemma range_app (xs ys : list A) (body : S → A → ctl R S) (s : S) :
  range (xs ++ ys) body s =
  match range xs body s with
  | Next s' => range ys body s'
  | Return r => Return r
  | Abort why => Abort why
  end.
Proof.
  revert s. induction xs as [|x xs IH]; intros s; simpl; [done|].
  destruct (body s x); auto.
Qed.

(** Two nested loops visit the concatenation. *)
Lemma range_nested {B} (inner : B → list A) (ys : list B) (body : S → A → ctl R S) (s : S) :
  range ys (fun s y => if bool_decide (0 < length (inner y))
                       then range (inner y) body s else Next s) s
  = range (concat (map inner ys)) body s.
Proof.
  revert s. induction ys as [|y ys IH]; intros s; simpl; [done|].
  rewrite range_guard, range_app.
  destruct (range (inner y) body s); auto.
Qed.
End Loops.

Section UnitResolution.
Import PanelUnits.

Lemma empty_not_valid : "" ∉ validUnits.
Proof.
  apply (bool_decide_eq_false_1 ("" ∈ validUnits)). vm_compute. reflexivity.
Qed.

Lemma valid_nonempty v : v ∈ validUnits → v ≠ "".
Proof. intros Hv ->. by apply empty_not_valid. Qed.

Lemma recognized_spec cu :
  existsb (fun u => bool_decide (u = cu)) validUnits = true ↔ cu ∈ validUnits.
Proof.
  rewrite existsb_exists. split.
  - intros (u & Hin & Hu). apply bool_decide_eq_true_1 in Hu. subst.
    by apply list_elem_of_In.
  - intros Hin. exists cu. split; [by apply list_elem_of_In|].
    by apply bool_decide_eq_true_2.
Qed.

(** The unit check of the rule passes exactly on the catalog. *)
Lemma unit_check_spec cu :
  bool_decide (cu ≠ "") && existsb (fun u => bool_decide (u = cu)) validUnits
  = bool_decide (cu ∈ validUnits).
Proof.
  destruct (decide (cu ∈ validUnits)) as [Hin|Hin].
  - rewrite (bool_decide_eq_true_2 (cu ∈ validUnits)) by done.
    rewrite bool_decide_eq_true_2 by (by apply valid_nonempty).
    by apply recognized_spec.
  - rewrite (bool_decide_eq_false_2 (cu ∈ validUnits)) by done.
    destruct (existsb _ validUnits) eqn:E.
    + by apply recognized_spec in E.
    + by rewrite andb_false_r.
Qed.

(** The scan of [getConfiguredUnit], on the flattened properties. *)
Lemma getConfiguredUnit_scan p :
  getConfiguredUnit p =
  match Panel_FieldConfig p with
  | None => Ret ""
  | Some fc =>
      match range (properties fc) unit_property "" with
      | Abort why => Panic why
      | Return r => Ret r
      | Next cu =>
          if bool_decide (cu = "") && bool_decide (Defaults_Unit (FieldConfig_Defaults fc) ≠ "")
          then Ret (Defaults_Unit (FieldConfig_Defaults fc))
          else Ret cu
      end
  end.
Proof.
  unfold getConfiguredUnit, properties.
  destruct (Panel_FieldConfig p) as [fc|]; [|done].
  rewrite range_guard. unfold unit_override.
  by rewrite (range_nested Override_OverrideProperties).
Qed.

(** Properties that supply no unit leave the scanned unit as it is. *)
Lemma scan_no_unit props cu :
  (∀ o, o ∈ props → ¬ supplies_unit o) → range props unit_property cu = Next cu.
Proof.
  induction props as [|o props IH]; intros Hno; simpl; [done|].
  unfold unit_property at 1.
  rewrite bool_decide_eq_false_2 by (apply Hno; left).
  apply IH. intros o' Hin. apply Hno. by right.
Qed.

(** While every unit override is a string the scan goes on. *)
Lemma scan_string_units props cu :
  (∀ o, o ∈ props → supplies_unit o → ∃ s, OverrideProperty_Value o = AString s) →
  ∃ cu', range props unit_property cu = Next cu'.
Proof.
  revert cu. induction props as [|o props IH]; intros cu Hstr; simpl; [eauto|].
  assert (∀ o', o' ∈ props → supplies_unit o' → ∃ s, OverrideProperty_Value o' = AString s)
    as Hrest by (intros o' Hin; apply Hstr; by right).
  unfold unit_property at 1. case_bool_decide as Hid.
  - destruct (Hstr o) as [s ->]; [by left | done |]. by apply IH.
  - by apply IH.
Qed.

(** The last unit override decides what the scan yields. *)
Lemma scan_last_unit pre o post v cu :
  supplies_unit o → OverrideProperty_Value o = AString v →
  (∀ o', o' ∈ post → ¬ supplies_unit o') →
  (∀ o', o' ∈ pre → supplies_unit o' → ∃ s, OverrideProperty_Value o' = AString s) →
  range (pre ++ o :: post) unit_property cu = Next v.
Proof.
  intros Hid Hv Hpost Hpre. rewrite range_app.
  destruct (scan_string_units pre cu Hpre) as [cu' ->]. simpl.
  unfold unit_property at 1. rewrite bool_decide_eq_true_2 by done. rewrite Hv.
  by apply scan_no_unit.
Qed.

(** C1: when the last override property with id "unit" in scan order
    holds a string that is a recognized unit, and the unit overrides before
    it hold strings, the resolved unit is that override's value, whatever
    Defaults.Unit is: the override wins over the default. *)
Theorem getConfiguredUnit_last_override_wins
    (p : Panel) (fc : FieldConfig) (pre post : list OverrideProperty)
    (o : OverrideProperty) (v : string) :
  Panel_FieldConfig p = Some fc →
  properties fc = pre ++ o :: post →
  OverrideProperty_Id o = "unit" →
  OverrideProperty_Value o = AString v →
  v ∈ validUnits →
  (∀ o', o' ∈ post → OverrideProperty_Id o' ≠ "unit") →
  (∀ o', o' ∈ pre → OverrideProperty_Id o' = "unit" →
         ∃ s, OverrideProperty_Value o' = AString s) →
  getConfiguredUnit p = Ret v.
Proof.
  intros Hfc Hprops Hid Hv Hvalid Hpost Hpre.
  rewrite getConfiguredUnit_scan, Hfc, Hprops.
  rewrite (scan_last_unit pre o post v "") by done.
  by rewrite (bool_decide_eq_false_2 (v = "")) by (by apply valid_nonempty).
Qed.
End UnitResolution.

Lemma bytes_valid : "bytes" ∈ PanelUnits.validUnits.
Proof.
  apply (bool_decide_eq_true_1 ("bytes" ∈ PanelUnits.validUnits)). vm_compute. reflexivity.
Qed.

Lemma getConfiguredUnit_bytes_over_short_witness :
  PanelUnits.getConfiguredUnit Samples.bytes_over_short = Ret "bytes".
Proof.
  apply (getConfiguredUnit_last_override_wins Samples.bytes_over_short
           (Samples.field_config "short" None [[Samples.unit_property "bytes"]])
           [] [] (Samples.unit_property "bytes") "bytes").
  - reflexivity.
  - reflexivity.
  - reflexivity.
  - reflexivity.
  - exact bytes_valid.
  - intros o' Hin. by apply elem_of_nil in Hin.
  - intros o' Hin. by apply elem_of_nil in Hin.
Defined.

(** C1 as stated fails: a panel can carry the recognized unit override
    "bytes" and still resolve to Defaults.Unit, a unit that none of its
    overrides holds: a later unit override with the empty string hands the
    decision back to the default, so the override does not win. *)
Lemma getConfiguredUnit_default_beats_override :
  ¬ (∀ (p : PanelUnits.Panel) (fc : PanelUnits.FieldConfig)
       (o : PanelUnits.OverrideProperty) (v : string),
       PanelUnits.Panel_FieldConfig p = Some fc →
       o ∈ PanelUnits.properties fc →
       PanelUnits.OverrideProperty_Id o = "unit" →
       PanelUnits.OverrideProperty_Value o = AString v →
       v ∈ PanelUnits.validUnits →
       ∃ o' u, o' ∈ PanelUnits.properties fc ∧
               PanelUnits.OverrideProperty_Id o' = "unit" ∧
               PanelUnits.OverrideProperty_Value o' = AString u ∧
               PanelUnits.getConfiguredUnit p = Ret u).
Proof.
  intros claim.
  destruct (claim Samples.bytes_then_empty
              (Samples.field_config "short" None
                 [[Samples.unit_property "bytes"; Samples.unit_property ""]])
              (Samples.unit_property "bytes") "bytes"
              eq_refl (list_elem_of_here _ _) eq_refl eq_refl bytes_valid)
    as (o' & u & Hin & _ & Hvalue & Hresolved).
  vm_compute in Hresolved. injection Hresolved as <-.
  vm_compute in Hin. each_member Hin; discriminate Hvalue.
Qed.

(** The resolution on that panel: the default, "short". *)
Example getConfiguredUnit_empty_override_falls_back :
  PanelUnits.getConfiguredUnit Samples.bytes_then_empty = Ret "short".
Proof. reflexivity. Qed.

Section RuleFacts.
Import PanelUnits.
Variable Unmarshal_any : bytes → any * option error.
Variable Unmarshal_StatOptions : bytes → StatOptions + error.

Local Abbreviation mappings_of := (getValueMappings Unmarshal_any).
Local Abbreviation rule := (NewPanelUnitsRule_fn Unmarshal_any Unmarshal_StatOptions).

Lemma not_nil_spec v : not_nil v = true ↔ v ≠ ANil.
Proof. destruct v; simpl; split; intros; congruence. Qed.

Lemma mappings_property_spec o :
  mappings_property () o =
  if bool_decide (OverrideProperty_Id o = "mappings") && not_nil (OverrideProperty_Value o)
  then Return (OverrideProperty_Value o, None) else Next ().
Proof. reflexivity. Qed.

Lemma mappings_guard_true o :
  supplies_mappings o →
  bool_decide (OverrideProperty_Id o = "mappings") && not_nil (OverrideProperty_Value o) = true.
Proof.
  intros [Hid Hv]. rewrite bool_decide_eq_true_2 by done. by apply not_nil_spec.
Qed.

Lemma mappings_guard_false o :
  ¬ supplies_mappings o →
  bool_decide (OverrideProperty_Id o = "mappings") && not_nil (OverrideProperty_Value o) = false.
Proof.
  intros Hno. apply not_true_is_false. intros Hguard.
  apply andb_true_iff in Hguard as [Hid Hv]. apply Hno. split.
  - by apply bool_decide_eq_true_1 in Hid.
  - by apply not_nil_spec.
Qed.

Lemma mappings_override_nested overrides :
  range overrides mappings_override ()
  = range (concat (map Override_OverrideProperties overrides)) mappings_property ().
Proof.
  induction overrides as [|override overrides IH]; simpl; [done|].
  unfold mappings_override at 1. rewrite range_guard, range_app.
  destruct (range (Override_OverrideProperties override) mappings_property ())
    as [[]| |]; auto.
Qed.

(** The scan of [getValueMappings], on the flattened properties. *)
Lemma getValueMappings_scan p :
  mappings_of p =
  match Panel_FieldConfig p with
  | None => Ret (ANil, None)
  | Some fc =>
      match range (properties fc) mappings_property () with
      | Abort why => Panic why
      | Return r => Ret r
      | Next _ =>
          match Defaults_Mappings (FieldConfig_Defaults fc) with
          | Some raw => Ret (Unmarshal_any raw)
          | None => Ret (ANil, None)
          end
      end
  end.
Proof.
  unfold getValueMappings, properties.
  destruct (Panel_FieldConfig p) as [fc|]; [|done].
  rewrite range_guard, mappings_override_nested.
  destruct (range _ mappings_property ()); [|done|done].
  destruct (Defaults_Mappings (FieldConfig_Defaults fc)) as [raw|]; [|done].
  by destruct (Unmarshal_any raw) as [v [err|]].
Qed.

Lemma scan_no_mappings props :
  (∀ o, o ∈ props → ¬ supplies_mappings o) → range props mappings_property () = Next ().
Proof.
  induction props as [|o props IH]; intros Hno; simpl; [done|].
  rewrite mappings_property_spec, mappings_guard_false by (apply Hno; left).
  apply IH. intros o' Hin. apply Hno. by right.
Qed.

(** The first property that supplies a mapping ends the scan. *)
Lemma scan_first_mappings pre o post :
  supplies_mappings o → (∀ o', o' ∈ pre → ¬ supplies_mappings o') →
  range (pre ++ o :: post) mappings_property () = Return (OverrideProperty_Value o, None).
Proof.
  intros Ho Hpre. rewrite range_app, (scan_no_mappings pre Hpre). simpl.
  by rewrite mappings_property_spec, mappings_guard_true.
Qed.

(** The scan never panics, and what it returns is a non-nil mapping
    without error. *)
Lemma scan_mappings_result props :
  match range props mappings_property () with
  | Next _ => True
  | Return (v, err) => v ≠ ANil ∧ err = None
  | Abort _ => False
  end.
Proof.
  induction props as [|o props IH]; simpl; [done|].
  rewrite mappings_property_spec.
  destruct (bool_decide _ && not_nil _) eqn:Hguard; [|done].
  apply andb_true_iff in Hguard as [_ Hv]. split; [|done]. by apply not_nil_spec.
Qed.

Lemma getValueMappings_returns p : ∃ v err, mappings_of p = Ret (v, err).
Proof.
  rewrite getValueMappings_scan.
  destruct (Panel_FieldConfig p) as [fc|]; [|eauto].
  pose proof (scan_mappings_result (properties fc)) as Hscan.
  destruct (range (properties fc) mappings_property ()) as [[]|[v err]|why]; [|eauto|done].
  destruct (Defaults_Mappings (FieldConfig_Defaults fc)) as [raw|]; [|eauto].
  destruct (Unmarshal_any raw); eauto.
Qed.

(** C2: with several override properties of one id the scan is in order;
    for "unit" every match overwrites the one before, so, when the
    properties with id "unit" hold strings (one that does not makes the
    resolution panic), the last property with id "unit" decides (an empty
    string there hands over to Defaults.Unit); for "mappings" the scan
    stops at the first property with id "mappings" and a non-null value,
    whose value is the resolved mapping. *)
Theorem override_scan_order (p : Panel) (fc : FieldConfig) :
  Panel_FieldConfig p = Some fc →
  (∀ pre o post v,
     properties fc = pre ++ o :: post →
     OverrideProperty_Id o = "unit" →
     OverrideProperty_Value o = AString v →
     (∀ o', o' ∈ post → OverrideProperty_Id o' ≠ "unit") →
     (∀ o', o' ∈ pre → OverrideProperty_Id o' = "unit" →
            ∃ s, OverrideProperty_Value o' = AString s) →
     getConfiguredUnit p
     = Ret (if bool_decide (v = "") then Defaults_Unit (FieldConfig_Defaults fc) else v)) ∧
  (∀ pre o post,
     properties fc = pre ++ o :: post →
     OverrideProperty_Id o = "mappings" →
     OverrideProperty_Value o ≠ ANil →
     (∀ o', o' ∈ pre →
            ¬ (OverrideProperty_Id o' = "mappings" ∧ OverrideProperty_Value o' ≠ ANil)) →
     mappings_of p = Ret (OverrideProperty_Value o, None)).
Proof.
  intros Hfc. split.
  - intros pre o post v Hprops Hid Hv Hpost Hpre.
    rewrite getConfiguredUnit_scan, Hfc, Hprops.
    rewrite (scan_last_unit pre o post v "") by done.
    case_bool_decide as Hempty; simpl; [|done].
    by case_bool_decide as Hdefault; [|rewrite Hempty, Hdefault].
  - intros pre o post Hprops Hid Hv Hpre.
    rewrite getValueMappings_scan, Hfc, Hprops.
    by rewrite (scan_first_mappings pre o post) by done.
Qed.

Lemma in_scope_guard p :
  Panel_Type p ∈ unit_panel_types → bool_decide (Panel_Type p ∈ unit_panel_types) = true.
Proof. apply bool_decide_eq_true_2. Qed.


(** C7: an in-scope panel whose value mappings resolve without error to a
    non-null value yields no result, whatever its unit. *)
Theorem rule_skips_mapped_panels (d : Dashboard) (p : Panel) (v : any) :
  Panel_Type p ∈ unit_panel_types →
  mappings_of p = Ret (v, None) →
  v ≠ ANil →
  rule d p = Ret [].
Proof.
  intros Hscope Hmap Hv. unfold NewPanelUnitsRule_fn.
  rewrite (in_scope_guard p Hscope).
  destruct (stat_reduces_fields Unmarshal_StatOptions p); [done|].
  rewrite Hmap. simpl.
  by rewrite (proj2 (not_nil_spec v) Hv).
Qed.

(** C6: a "gauge" panel without value mappings whose resolved unit is
    "xyz" yields exactly one result, an Error with the message
    "has no or invalid units defined: 'xyz'"; with resolved unit "celsius"
    it yields none. *)
Theorem rule_gauge_unit (d : Dashboard) (p : Panel) :
  Panel_Type p = "gauge" →
  mappings_of p = Ret (ANil, None) →
  (getConfiguredUnit p = Ret "xyz" →
     rule d p = Ret [ {| Result_Dashboard := d; Result_Panel := p;
                         Result_Severity := Lint.Error;
                         Result_Message := "has no or invalid units defined: 'xyz'" |} ]) ∧
  (getConfiguredUnit p = Ret "celsius" → rule d p = Ret []).
Proof.
  intros Hty Hmap.
  assert (stat_reduces_fields Unmarshal_StatOptions p = false) as Hstat.
  { unfold stat_reduces_fields. by rewrite Hty. }
  assert (Panel_Type p ∈ unit_panel_types) as Hscope.
  { rewrite Hty. apply (bool_decide_eq_true_1 _). vm_compute. reflexivity. }
  unfold NewPanelUnitsRule_fn.
  rewrite (in_scope_guard p Hscope), Hstat, Hmap. simpl.
  split; intros ->; reflexivity.
Qed.
End RuleFacts.

Lemma override_scan_order_mixed_witness :
  PanelUnits.getConfiguredUnit (Samples.panel "gauge" Samples.mixed_overrides)
  = Ret "celsius" ∧
  PanelUnits.getValueMappings Samples.refuses (Samples.panel "gauge" Samples.mixed_overrides)
  = Ret (Samples.first_mapping, None).
Proof.
  destruct (override_scan_order Samples.refuses
              (Samples.panel "gauge" Samples.mixed_overrides) Samples.mixed_overrides
              eq_refl) as [Hunit Hmappings].
  split.
  - apply (Hunit [Samples.unit_property "percent"; Samples.mappings_property ANil;
                  Samples.mappings_property Samples.first_mapping]
                 (Samples.unit_property "celsius")
                 [Samples.mappings_property Samples.second_mapping] "celsius").
    + reflexivity.
    + reflexivity.
    + reflexivity.
    + intros o' Hin. each_member Hin. discriminate.
    + intros o' Hin Hid. each_member Hin; try discriminate Hid. by exists "percent".
  - apply (Hmappings [Samples.unit_property "percent"; Samples.mappings_property ANil]
                     (Samples.mappings_property Samples.first_mapping)
                     [Samples.unit_property "celsius";
                      Samples.mappings_property Samples.second_mapping]).
    + reflexivity.
    + reflexivity.
    + discriminate.
    + intros o' Hin [Hid Hv]. each_member Hin; [discriminate Hid | by apply Hv].
Defined.

(** C2 as stated fails for units: with two unit overrides the resolved
    unit is not the value of the earliest one. *)
Lemma getConfiguredUnit_first_override_loses :
  ¬ (∀ (p : PanelUnits.Panel) (fc : PanelUnits.FieldConfig)
       (pre post : list PanelUnits.OverrideProperty)
       (o : PanelUnits.OverrideProperty) (v : string),
       PanelUnits.Panel_FieldConfig p = Some fc →
       PanelUnits.properties fc = pre ++ o :: post →
       PanelUnits.OverrideProperty_Id o = "unit" →
       PanelUnits.OverrideProperty_Value o = AString v →
       (∀ o', o' ∈ pre → PanelUnits.OverrideProperty_Id o' ≠ "unit") →
       (∃ o', o' ∈ post ∧ PanelUnits.OverrideProperty_Id o' = "unit") →
       PanelUnits.getConfiguredUnit p = Ret v).
Proof.
  intros claim.
  specialize (claim Samples.percent_then_celsius
                (Samples.field_config "" None
                   [[Samples.unit_property "percent"]; [Samples.unit_property "celsius"]])
                [] [Samples.unit_property "celsius"]
                (Samples.unit_property "percent") "percent"
                eq_refl eq_refl eq_refl eq_refl).
  assert (PanelUnits.getConfiguredUnit Samples.percent_then_celsius = Ret "percent") as Hfirst.
  { apply claim.
    - intros o' Hin. by apply elem_of_nil in Hin.
    - exists (Samples.unit_property "celsius"). split; [left | reflexivity]. }
  vm_compute in Hfirst. discriminate Hfirst.
Qed.

Example getConfiguredUnit_percent_then_celsius :
  PanelUnits.getConfiguredUnit Samples.percent_then_celsius = Ret "celsius".
Proof. reflexivity. Qed.

Lemma gauge_in_scope : "gauge" ∈ PanelUnits.unit_panel_types.
Proof.
  apply (bool_decide_eq_true_1 ("gauge" ∈ PanelUnits.unit_panel_types)).
  vm_compute. reflexivity.
Qed.

Lemma graph_in_scope : "graph" ∈ PanelUnits.unit_panel_types.
Proof.
  apply (bool_decide_eq_true_1 ("graph" ∈ PanelUnits.unit_panel_types)).
  vm_compute. reflexivity.
Qed.



Lemma rule_mapped_graph_witness :
  PanelUnits.NewPanelUnitsRule_fn
    (Samples.answers Samples.mappings_document Samples.first_mapping None) Samples.no_StatOptions
    Samples.row_dashboard Samples.mapped_graph = Ret [].
Proof.
  apply (rule_skips_mapped_panels
           (Samples.answers Samples.mappings_document Samples.first_mapping None)
           Samples.no_StatOptions Samples.row_dashboard Samples.mapped_graph
           Samples.first_mapping).
  - exact graph_in_scope.
  - reflexivity.
  - discriminate.
Defined.

Lemma rule_gauge_unit_witness :
  PanelUnits.NewPanelUnitsRule_fn Samples.refuses Samples.no_StatOptions
    Samples.row_dashboard (Samples.gauge "xyz")
  = Ret [ PanelUnits.error_result Samples.row_dashboard (Samples.gauge "xyz")
            "has no or invalid units defined: 'xyz'" ] ∧
  PanelUnits.NewPanelUnitsRule_fn Samples.refuses Samples.no_StatOptions
    Samples.row_dashboard (Samples.gauge "celsius") = Ret [].
Proof.
  split.
  - apply (rule_gauge_unit Samples.refuses Samples.no_StatOptions
             Samples.row_dashboard (Samples.gauge "xyz") eq_refl eq_refl).
    reflexivity.
  - apply (rule_gauge_unit Samples.refuses Samples.no_StatOptions
             Samples.row_dashboard (Samples.gauge "celsius") eq_refl eq_refl).
    reflexivity.
Defined.

(** * Further facts: flattening *)
Section FlatteningMore.
Import Lint.

Lemma elem_of_concat_map {A B} (f : A → list B) (xs : list A) (y : B) :
  y ∈ concat (map f xs) ↔ ∃ x, x ∈ xs ∧ y ∈ f x.
Proof.
  rewrite list_elem_of_In, in_concat. split.
  - intros (l & Hl & Hy). apply in_map_iff in Hl as (x & <- & Hx).
    exists x. by rewrite !list_elem_of_In.
  - intros (x & Hx & Hy). exists (f x). rewrite in_map_iff.
    split; [|by apply list_elem_of_In]. exists x. split; [done|by apply list_elem_of_In].
Qed.

Lemma Panel_GetPanels_sound p : ∀ q, q ∈ Panel_GetPanels p → nested q p.
Proof.
  induction p as [p IH] using Panel_forall_ind. intros q.
  rewrite Panel_GetPanels_unfold, elem_of_cons, elem_of_concat_map.
  intros [-> | (c & Hc & Hq)]; [constructor|].
  apply (nested_child q c p Hc).
  rewrite Forall_forall in IH. by apply IH.
Qed.

Lemma Panel_GetPanels_complete q p : nested q p → q ∈ Panel_GetPanels p.
Proof.
  induction 1 as [p | q c p Hc _ IH].
  - rewrite Panel_GetPanels_unfold. left.
  - rewrite Panel_GetPanels_unfold. right. apply elem_of_concat_map. eauto.
Qed.

(** The flattening of a panel holds exactly the panels reachable from it
    by nesting, itself included. *)
Theorem Panel_GetPanels_reachable (p q : Panel) :
  q ∈ Panel_GetPanels p ↔ nested q p.
Proof.
  split; [apply Panel_GetPanels_sound | apply Panel_GetPanels_complete].
Qed.

(** The flattening of a dashboard holds exactly the panels reachable by
    nesting from a panel of one of its rows or from one of its own panels;
    the store plays no part in which panels are returned. *)
Theorem Dashboard_GetPanels_reachable (d : Dashboard) (σ : store) (q : Panel) :
  q ∈ (Dashboard_GetPanels d σ).1 ↔ ∃ top, top ∈ roots d ∧ nested q top.
Proof.
  rewrite Dashboard_GetPanels_order. unfold rows_then_top_level, roots.
  rewrite elem_of_app, !elem_of_concat_map. split.
  - intros [(r & Hr & Hq) | (top & Htop & Hq)].
    + apply elem_of_concat_map in Hq as (top & Htop & Hq).
      exists top. split.
      * apply elem_of_app. left. apply elem_of_concat_map. eauto.
      * apply Panel_GetPanels_sound. by rewrite Panel_GetPanels_preorder.
    + exists top. split; [apply elem_of_app; by right|].
      apply Panel_GetPanels_sound. by rewrite Panel_GetPanels_preorder.
  - intros (top & Htop & Hq).
    apply Panel_GetPanels_complete in Hq. rewrite Panel_GetPanels_preorder in Hq.
    apply elem_of_app in Htop as [Htop | Htop].
    + left. apply elem_of_concat_map in Htop as (r & Hr & Htop).
      exists r. split; [done|]. apply elem_of_concat_map. eauto.
    + right. eauto.
Qed.

(** The store after the index loop, array by array. *)
Lemma foldl_index_Targets_lookup ps : ∀ (σ : store) (l : loc),
  foldl index_Targets σ ps !! l
  = if bool_decide (l ∈ omap Panel_Targets ps)
    then imap Target_set_Idx <$> σ !! l
    else σ !! l.
Proof.
  induction ps as [|pa ps IH]; intros σ l; simpl; [done|].
  rewrite IH, index_Targets_alter.
  destruct (Panel_Targets pa) as [l'|] eqn:Hpa; [|done].
  destruct (decide (l' = l)) as [->|Hne].
  - rewrite lookup_alter_eq.
    rewrite (bool_decide_eq_true_2 (l ∈ l :: _)) by left.
    case_bool_decide; [|done].
    destruct (σ !! l) as [ts|]; simpl; [|done]. by rewrite imap_set_Idx_twice.
  - rewrite lookup_alter_ne by done.
    assert (∀ xs : list loc, bool_decide (l ∈ l' :: xs) = bool_decide (l ∈ xs)) as Hskip.
    { intros xs. apply bool_decide_ext. rewrite elem_of_cons.
      split; [intros [?|?]; [congruence|done] | by right]. }
    by rewrite Hskip.
Qed.

Lemma touched_spec (ps : list Panel) (l : loc) :
  l ∈ omap Panel_Targets ps ↔ ∃ pa, pa ∈ ps ∧ Panel_Targets pa = Some l.
Proof. apply list_elem_of_omap. Qed.

(** Flattening leaves every array alone that no returned panel refers to. *)
Theorem Dashboard_GetPanels_frame (d : Dashboard) (σ : store) (l : loc) :
  (∀ pa, pa ∈ (Dashboard_GetPanels d σ).1 → Panel_Targets pa ≠ Some l) →
  (Dashboard_GetPanels d σ).2 !! l = σ !! l.
Proof.
  intros Hfree. unfold Dashboard_GetPanels in *. simpl in *.
  rewrite foldl_index_Targets_lookup.
  rewrite bool_decide_eq_false_2; [done|].
  rewrite touched_spec. intros (pa & Hin & Hpa). by apply (Hfree pa).
Qed.

Lemma imap_set_Idx_keeps {B} (field : Target → B) (ts : list Target) :
  (∀ ti t, field (Target_set_Idx ti t) = field t) →
  map field (imap Target_set_Idx ts) = map field ts.
Proof.
  intros Hkeep. change (map field) with (fmap (M:=list) field).
  apply list_eq. intros i. rewrite !list_lookup_fmap, list_lookup_imap.
  destruct (ts !! i); simpl; [|done]. by rewrite Hkeep.
Qed.

(** Flattening changes nothing but indices: in every array of the store,
    used by a returned panel or not, the expressions, panel ids, ref ids and
    legend formats are afterwards what they were, position by position (so
    the array keeps its length), and no array appears or disappears. *)
Theorem Dashboard_GetPanels_only_Idx (d : Dashboard) (σ : store) (l : loc) :
  map Target_Expr <$> (Dashboard_GetPanels d σ).2 !! l = map Target_Expr <$> σ !! l ∧
  map Target_PanelId <$> (Dashboard_GetPanels d σ).2 !! l = map Target_PanelId <$> σ !! l ∧
  map Target_RefId <$> (Dashboard_GetPanels d σ).2 !! l = map Target_RefId <$> σ !! l ∧
  map Target_LegendFormat <$> (Dashboard_GetPanels d σ).2 !! l
  = map Target_LegendFormat <$> σ !! l.
Proof.
  unfold Dashboard_GetPanels. simpl.
  rewrite foldl_index_Targets_lookup. case_bool_decide; [|done].
  destruct (σ !! l) as [ts|]; simpl; [|done].
  by rewrite !imap_set_Idx_keeps.
Qed.

(** Flattening twice is flattening once: the second call returns the same
    panels and leaves the store of the first call as it is. *)
Theorem Dashboard_GetPanels_idempotent (d : Dashboard) (σ : store) :
  Dashboard_GetPanels d (Dashboard_GetPanels d σ).2 = Dashboard_GetPanels d σ.
Proof.
  unfold Dashboard_GetPanels. simpl. f_equal.
  apply map_eq. intros l. rewrite !foldl_index_Targets_lookup.
  case_bool_decide; [|done].
  destruct (σ !! l) as [ts|]; simpl; [|done]. by rewrite imap_set_Idx_twice.
Qed.
End FlatteningMore.

Lemma Dashboard_GetPanels_frame_witness :
  (Lint.Dashboard_GetPanels Samples.row_dashboard Samples.spare_store).2 !! 4%positive
  = Samples.spare_store !! 4%positive.
Proof.
  apply (Dashboard_GetPanels_frame Samples.row_dashboard Samples.spare_store 4%positive).
  intros pa Hin. vm_compute in Hin. each_member Hin; discriminate.
Defined.

(** * Further facts: templates by type *)
Section TemplatesByType.
Import Lint.
Variable EqualFold : string → string → bool.

Lemma foldl_keep {A} (keep : A → bool) (xs : list A) (acc : list A) :
  foldl (fun acc x => if keep x then acc ++ [x] else acc) acc xs
  = acc ++ List.filter keep xs.
Proof.
  revert acc. induction xs as [|x xs IH]; intros acc; simpl.
  - by rewrite app_nil_r.
  - rewrite IH. destruct (keep x); [|done]. by rewrite <- app_assoc.
Qed.

Lemma filter_sublist {A} (keep : A → bool) (xs : list A) :
  List.filter keep xs `sublist_of` xs.
Proof.
  induction xs as [|x xs IH]; simpl; [constructor|].
  destruct (keep x); by constructor.
Qed.

(** The templates returned for a type are the dashboard's templates
    filtered by [EqualFold] on their type: those whose type folds to it,
    each as often as it occurs and in the original order. *)
Theorem Dashboard_GetTemplateByType_selects (d : Dashboard) (t : string) :
  Dashboard_GetTemplateByType EqualFold d t
  = List.filter (fun templ => EqualFold (Template_Type templ) t)
      (Dashboard_Templating_List d).
Proof.
  unfold Dashboard_GetTemplateByType.
  by rewrite (foldl_keep (fun templ => EqualFold (Template_Type templ) t)).
Qed.
End TemplatesByType.

(** * Further facts: decoders *)
Section DatasourceMore.
Import Lint.
Variable Unmarshal_any : bytes → any + error.
Variable Sprint_v : any → string.

Local Abbreviation decode := (Datasource_UnmarshalJSON Unmarshal_any Sprint_v).

(** A failed Datasource decode, for a syntax error or for a shape, leaves
    the receiver as it was; a successful one gives a value that does not
    depend on what the receiver held. *)
Theorem Datasource_UnmarshalJSON_receiver (d : Datasource) (buf : bytes) :
  (∀ d' e, decode d buf = (d', Some e) → d' = d) ∧
  (∀ d2, (decode d buf).2 = None → decode d2 buf = decode d buf).
Proof.
  unfold Datasource_UnmarshalJSON.
  destruct (Unmarshal_any buf) as [[ | b | bits | s | xs | m ]|err]; simpl;
    try (split; [intros d' e [= <- _]; reflexivity | intros d2 [=]]; fail);
    try (split; [intros d' e [=] | reflexivity]; fail).
  destruct (m !! "uid") as [[ | b | bits | s | xs | m' ]|]; simpl;
    try (split; [intros d' e [= <- _]; reflexivity | intros d2 [=]]; fail);
    try (split; [intros d' e [=] | reflexivity]; fail).
Qed.
End DatasourceMore.

Section TemplateMore.
Import Lint.
Variable Unmarshal_Template_raw : bytes → outcome (Template_raw + error).
Variable Sprint_v : any → string.

Local Abbreviation decode := (Template_UnmarshalJSON Unmarshal_Template_raw Sprint_v).

Lemma unqueried_guard t raw :
  raw_Type raw = "adhoc" ∨ raw_Type raw = "custom" →
  bool_decide (Template_Type (Template_assign t raw) ≠ "adhoc")
  && bool_decide (Template_Type (Template_assign t raw) ≠ "custom") = false.
Proof. intros [H | H]; simpl; rewrite H; reflexivity. Qed.

Lemma queried_or_not raw :
  queried raw ∨ (raw_Type raw = "adhoc" ∨ raw_Type raw = "custom").
Proof.
  unfold queried.
  destruct (decide (raw_Type raw = "adhoc")), (decide (raw_Type raw = "custom")); auto.
Qed.

Lemma queried_excludes raw :
  queried raw → ¬ (raw_Type raw = "adhoc" ∨ raw_Type raw = "custom").
Proof. intros [Ha Hc] [H | H]; auto. Qed.

(** [Template.UnmarshalJSON] succeeds in exactly two ways: the type is
    "adhoc" or "custom" and the receiver takes the decoded fields with its
    query kept, or the type is another one, the query is a string or an
    object with a string under "query", and the receiver takes the decoded
    fields and that string as query. *)
Theorem Template_UnmarshalJSON_succeeds_iff (t t' : Template) (buf : bytes) :
  decode t buf = Ret (t', None) ↔
  ∃ raw, Unmarshal_Template_raw buf = Ret (inl raw) ∧
    (((raw_Type raw = "adhoc" ∨ raw_Type raw = "custom") ∧ t' = Template_assign t raw) ∨
     (queried raw ∧
      ∃ q, (raw_Query raw = AString q ∨
            ∃ m, raw_Query raw = AMap m ∧ m !! "query" = Some (AString q)) ∧
           t' = Template_set_Query (Template_assign t raw) q)).
Proof.
  unfold Template_UnmarshalJSON.
  destruct (Unmarshal_Template_raw buf) as [[raw|err]|why]; cbn [mbind outcome_bind bind].
  - destruct (queried_or_not raw) as [Hq | Hn].
    + rewrite (queried_guard t raw Hq). split.
      * intros Hdec. exists raw. split; [done|]. right. split; [done|].
        destruct (raw_Query raw) as [ | b | bits | s | xs | m ]; try discriminate Hdec.
        -- injection Hdec as <-. eauto.
        -- destruct (m !! "query") as [[ | | | q | | ]|] eqn:Hm; try discriminate Hdec.
           injection Hdec as <-. exists q. split; [right; eauto | done].
      * intros (raw' & [= <-] & [[Hn _] | (_ & q & Hshape & ->)]).
        { by destruct (queried_excludes raw Hq). }
        destruct Hshape as [-> | (m & -> & ->)]; reflexivity.
    + rewrite (unqueried_guard t raw Hn). split.
      * intros [= <-]. exists raw. split; [done|]. by left.
      * intros (raw' & [= <-] & [[_ ->] | (Hq & _)]); [done|].
        by destruct (queried_excludes raw Hq).
  - split; [discriminate|]. by intros (raw & [=] & _).
  - split; [discriminate|]. by intros (raw & [=] & _).
Qed.

(** [Template.UnmarshalJSON] panics in exactly two situations: the call
    of [json.Unmarshal] on the raw struct panics (in a decoder of one of its
    fields), and the panic passes through unchanged; or that call returns a
    raw struct whose type is neither "adhoc" nor "custom" and whose query is
    an object without a string under "query", and the panic is the failed
    type assertion. *)
Theorem Template_UnmarshalJSON_panics_iff (t : Template) (buf : bytes) (why : panic) :
  decode t buf = Panic why ↔
  Unmarshal_Template_raw buf = Panic why ∨
  (why = TypeAssertion ∧
   ∃ raw m, Unmarshal_Template_raw buf = Ret (inl raw) ∧ queried raw ∧
            raw_Query raw = AMap m ∧ ∀ q, m !! "query" ≠ Some (AString q)).
Proof.
  unfold Template_UnmarshalJSON.
  destruct (Unmarshal_Template_raw buf) as [[raw|err]|why']; cbn [mbind outcome_bind bind].
  - split.
    + intros Hpanic. right.
      destruct (queried_or_not raw) as [Hq | Hn].
      * rewrite (queried_guard t raw Hq) in Hpanic.
        destruct (raw_Query raw) as [ | b | bits | s | xs | m ] eqn:Hquery;
          try discriminate Hpanic.
        destruct (m !! "query") as [[ | | | q | | ]|] eqn:Hm; try discriminate Hpanic;
          injection Hpanic as <-; (split; [done|]); exists raw, m;
          (split; [done|]); (split; [done|]); (split; [done|]); congruence.
      * rewrite (unqueried_guard t raw Hn) in Hpanic. discriminate Hpanic.
    + intros [Hlib | (-> & raw' & m & [= <-] & Hq & Hquery & Hm)]; [discriminate Hlib|].
      rewrite (queried_guard t raw Hq), Hquery.
      destruct (m !! "query") as [[ | | | q | | ]|] eqn:E; try reflexivity.
      by destruct (Hm q).
  - split; [discriminate|]. intros [Hlib | (_ & raw & m & Hraw & _)]; discriminate.
  - split; [intros [= ->]; by left|].
    intros [[= ->] | (_ & raw & m & Hraw & _)]; [done | discriminate Hraw].
Qed.
End TemplateMore.

Section TemplateErrors.
Import Lint.
Variable Unmarshal_Template_raw : bytes → outcome (Template_raw + error).
Variable Sprint_v : any → string.

Local Abbreviation decode := (Template_UnmarshalJSON Unmarshal_Template_raw Sprint_v).

(** When [Template.UnmarshalJSON] returns an error the query of the
    receiver is as before; after a syntax error the whole receiver is, but
    after a rejected query shape the other fields have already been
    overwritten with the decoded ones. *)
Theorem Template_UnmarshalJSON_error_state (t t' : Template) (buf : bytes) (e : error) :
  decode t buf = Ret (t', Some e) →
  Template_Query t' = Template_Query t ∧
  (∀ raw, Unmarshal_Template_raw buf = Ret (inl raw) → t' = Template_assign t raw) ∧
  (∀ err, Unmarshal_Template_raw buf = Ret (inr err) → t' = t ∧ e = err).
Proof.
  unfold Template_UnmarshalJSON.
  destruct (Unmarshal_Template_raw buf) as [[raw|err]|why]; cbn [mbind outcome_bind bind];
    [| |discriminate].
  - destruct (bool_decide _ && bool_decide _); [|discriminate].
    destruct (raw_Query raw) as [ | b | bits | s | xs | m ]; try discriminate;
      try (intros [= <- _]; split; [reflexivity|]; split; [by intros ? [= <-] | discriminate]).
    destruct (m !! "query") as [[ | | | q | | ]|]; discriminate.
  - intros [= <- <-]. split; [reflexivity|]. split; [discriminate | by intros ? [= <-]].
Qed.
End TemplateErrors.

Lemma Template_UnmarshalJSON_error_state_witness :
  ∃ t' e,
    Lint.Template_UnmarshalJSON
      (Samples.returning (Samples.reads Samples.number_query_document Samples.number_query_raw)) Samples.show
      Samples.old_Template Samples.number_query_document = Ret (t', Some e) ∧
    Lint.Template_Query t' = "up" ∧ Lint.Template_Name t' = "job".
Proof.
  eexists _, _. split; [reflexivity|].
  destruct (Template_UnmarshalJSON_error_state
              (Samples.returning (Samples.reads Samples.number_query_document Samples.number_query_raw))
              Samples.show Samples.old_Template _ Samples.number_query_document _ eq_refl)
    as (Hquery & Hraw & _).
  split; [exact Hquery|].
  exact (f_equal Lint.Template_Name (Hraw Samples.number_query_raw eq_refl)).
Defined.

Section TemplateValueMore.
Import Lint.
Variable Unmarshal_map : bytes → gmap string any + error.
Variable Sprint_v : any → string.

Local Abbreviation decode := (TemplateValue_UnmarshalJSON Unmarshal_map Sprint_v).

(** Case analysis on the shape of a field: the constructors, and for an
    array its first element. *)
Ltac shapes x :=
  destruct x as [ | ? | ? | ? | [|[ | ? | ? | ? | ? | ? ] ?] | ? ].

(** [TemplateValue.UnmarshalJSON] succeeds exactly when the input is an
    object in which "text" and "value" are each absent or of an accepted
    shape; an absent key leaves its field as it was, an accepted one sets it
    to the string or to the first element of the array. *)
Theorem TemplateValue_UnmarshalJSON_succeeds_iff (t t' : TemplateValue) (buf : bytes) :
  decode t buf = Ret (t', None) ↔
  ∃ raw, Unmarshal_map buf = inl raw ∧
    decoded_field (raw !! "text") (TemplateValue_Text t) (TemplateValue_Text t') ∧
    decoded_field (raw !! "value") (TemplateValue_Value t) (TemplateValue_Value t').
Proof.
  unfold TemplateValue_UnmarshalJSON.
  destruct (Unmarshal_map buf) as [raw|err];
    [|split; [discriminate | by intros (raw & [=] & _)]].
  split.
  - intros Hdec. exists raw. split; [done|].
    unfold decoded_field, holds_string.
    destruct (raw !! "text") as [x|]; [shapes x|]; simpl in Hdec; try discriminate Hdec;
      (destruct (raw !! "value") as [y|]; [shapes y|]; simpl in Hdec; try discriminate Hdec);
      injection Hdec as <-; simpl; (split; eauto 10).
  - intros (raw' & [= <-] & Htext & Hvalue). destruct t as [text value], t' as [text' value'].
    simpl in *.
    destruct Htext as [[-> ->] | (x & -> & [-> | (rest & ->)])];
      destruct Hvalue as [[-> ->] | (y & -> & [-> | (rest' & ->)])]; reflexivity.
Qed.

(** [TemplateValue.UnmarshalJSON] panics exactly when "text" holds an array
    that does not start with a string, or when "text" is absent or accepted
    and "value" holds such an array. *)
Theorem TemplateValue_UnmarshalJSON_panics_iff (t : TemplateValue) (buf : bytes) :
  (∃ why, decode t buf = Panic why) ↔
  ∃ raw, Unmarshal_map buf = inl raw ∧
    ((∃ x, raw !! "text" = Some x ∧ headless x) ∨
     ((raw !! "text" = None ∨ ∃ x s, raw !! "text" = Some x ∧ holds_string x s) ∧
      ∃ y, raw !! "value" = Some y ∧ headless y)).
Proof.
  unfold TemplateValue_UnmarshalJSON.
  destruct (Unmarshal_map buf) as [raw|err];
    [|split; [by intros [why [=]] | by intros (raw & [=] & _)]].
  split.
  - intros [why Hdec]. exists raw. split; [done|].
    unfold headless, holds_string.
    destruct (raw !! "text") as [x|]; [shapes x|]; simpl in Hdec; try discriminate Hdec;
      try (left; eexists; split; [reflexivity|]; eexists; split; [reflexivity|];
           intros; discriminate);
      (destruct (raw !! "value") as [y|]; [shapes y|]; simpl in Hdec; try discriminate Hdec);
      right; (split; [eauto 10|]);
      eexists; (split; [reflexivity|]); eexists; (split; [reflexivity|]);
      intros; discriminate.
  - intros (raw' & [= <-] & [(x & -> & xs & -> & Hxs) | (Htext & y & -> & ys & -> & Hys)]).
    + simpl. rewrite (first_string_panics xs Hxs). simpl. eauto.
    + destruct Htext as [-> | (x & s & -> & [-> | (rest & ->)])]; simpl;
        rewrite (first_string_panics ys Hys); simpl; eauto.
Qed.

End TemplateValueMore.


(** * Further facts: unit and mapping resolution *)
Section UnitResolutionMore.
Import PanelUnits.

Lemma scan_unit_never_returns props cu r : range props unit_property cu ≠ Return r.
Proof.
  revert cu. induction props as [|o props IH]; intros cu; simpl; [done|].
  unfold unit_property at 1. case_bool_decide; [|apply IH].
  destruct (OverrideProperty_Value o); solve [done | apply IH].
Qed.

Lemma scan_unit_abort props cu why :
  range props unit_property cu = Abort why →
  why = TypeAssertion ∧
  ∃ o, o ∈ props ∧ OverrideProperty_Id o = "unit" ∧ ∀ s, OverrideProperty_Value o ≠ AString s.
Proof.
  revert cu. induction props as [|o props IH]; intros cu; simpl; [done|].
  unfold unit_property at 1. case_bool_decide as Hid.
  - destruct (OverrideProperty_Value o) eqn:Hv;
      try (intros [= <-]; split; [done|]; exists o;
           split; [left|]; split; [done|]; intros s; congruence).
    intros Habort. destruct (IH _ Habort) as (-> & o' & Hin & Ho').
    split; [done|]. exists o'. split; [by right | done].
  - intros Habort. destruct (IH _ Habort) as (-> & o' & Hin & Ho').
    split; [done|]. exists o'. split; [by right | done].
Qed.

Lemma scan_unit_bad props cu o :
  o ∈ props → OverrideProperty_Id o = "unit" → (∀ s, OverrideProperty_Value o ≠ AString s) →
  range props unit_property cu = Abort TypeAssertion.
Proof.
  intros Hin Hid Hv. revert cu.
  induction props as [|o' props IH]; intros cu; [by apply elem_of_nil in Hin|].
  simpl. unfold unit_property at 1.
  apply elem_of_cons in Hin as [<- | Hin].
  - rewrite bool_decide_eq_true_2 by done.
    destruct (OverrideProperty_Value o) as [ | | | s | | ]; try reflexivity.
    by destruct (Hv s).
  - case_bool_decide; [|by apply IH].
    destruct (OverrideProperty_Value o'); try reflexivity. by apply IH.
Qed.

(** [getConfiguredUnit] panics exactly when some override property with id
    "unit", anywhere in the overrides, holds a value that is not a string;
    the panic is the failed type assertion. *)
Theorem getConfiguredUnit_panics_iff (p : Panel) (why : panic) :
  getConfiguredUnit p = Panic why ↔
  why = TypeAssertion ∧
  ∃ fc o, Panel_FieldConfig p = Some fc ∧ o ∈ properties fc ∧
          OverrideProperty_Id o = "unit" ∧ ∀ s, OverrideProperty_Value o ≠ AString s.
Proof.
  rewrite getConfiguredUnit_scan. split.
  - destruct (Panel_FieldConfig p) as [fc|]; [|discriminate].
    destruct (range (properties fc) unit_property "") as [cu|r|why'] eqn:Hscan.
    + destruct (bool_decide _ && bool_decide _); discriminate.
    + discriminate.
    + intros [= <-]. destruct (scan_unit_abort _ _ _ Hscan) as (-> & o & Hin & Ho).
      split; [done|]. by exists fc, o.
  - intros (-> & fc & o & -> & Hin & Hid & Hv).
    by rewrite (scan_unit_bad (properties fc) "" o).
Qed.

Lemma last_unit_cons o props :
  last (filter (fun o => OverrideProperty_Id o = "unit") (o :: props))
  = match last (filter (fun o => OverrideProperty_Id o = "unit") props) with
    | Some o' => Some o'
    | None => if bool_decide (OverrideProperty_Id o = "unit") then Some o else None
    end.
Proof.
  rewrite filter_cons. case_decide as Hid.
  - rewrite bool_decide_eq_true_2 by done.
    destruct (filter _ props) as [|o' rest] eqn:E; [done|].
    rewrite last_cons. by destruct (last (o' :: rest)).
  - rewrite bool_decide_eq_false_2 by done.
    by destruct (last (filter _ props)).
Qed.

(** With string units only, the scan ends with the value of the last unit
    override, or with what it started from. *)
Lemma scan_unit_last_string props : ∀ cu,
  (∀ o, o ∈ props → OverrideProperty_Id o = "unit" →
        ∃ s, OverrideProperty_Value o = AString s) →
  range props unit_property cu
  = Next (match last (filter (fun o => OverrideProperty_Id o = "unit") props) with
          | Some o => match OverrideProperty_Value o with AString v => v | _ => "" end
          | None => cu
          end).
Proof.
  induction props as [|o props IH]; intros cu Hstr; [done|].
  assert (∀ o', o' ∈ props → OverrideProperty_Id o' = "unit" →
                ∃ s, OverrideProperty_Value o' = AString s) as Hrest
    by (intros o' Hin; apply Hstr; by right).
  simpl range. rewrite last_unit_cons. unfold unit_property at 1.
  case_bool_decide as Hid.
  - destruct (Hstr o) as [s Hs]; [by left | done |]. rewrite Hs.
    rewrite (IH s Hrest).
    destruct (last (filter _ props)); [done|]. by rewrite Hs.
  - rewrite (IH cu Hrest). by destruct (last (filter _ props)).
Qed.

(** When every override property with id "unit" holds a string, the
    resolved unit is the value of the last of them in scan order, and
    Defaults.Unit when there is none or when that value is empty. *)
Theorem getConfiguredUnit_resolution (p : Panel) (fc : FieldConfig) :
  Panel_FieldConfig p = Some fc →
  (∀ o, o ∈ properties fc → OverrideProperty_Id o = "unit" →
        ∃ s, OverrideProperty_Value o = AString s) →
  getConfiguredUnit p
  = Ret (if bool_decide (scanned_unit fc = "")
         then Defaults_Unit (FieldConfig_Defaults fc)
         else scanned_unit fc).
Proof.
  intros Hfc Hstr. rewrite getConfiguredUnit_scan, Hfc.
  rewrite (scan_unit_last_string (properties fc) "" Hstr).
  fold (unit_overrides fc). fold (scanned_unit fc).
  case_bool_decide as Hempty; simpl; [|done].
  case_bool_decide as Hdefault; [done|].
  rewrite Hempty. f_equal. symmetry.
  by destruct (decide (Defaults_Unit (FieldConfig_Defaults fc) = "")).
Qed.
End UnitResolutionMore.

Lemma getConfiguredUnit_resolution_witness :
  PanelUnits.getConfiguredUnit (Samples.panel "gauge" Samples.mixed_overrides) = Ret "celsius".
Proof.
  apply (getConfiguredUnit_resolution
           (Samples.panel "gauge" Samples.mixed_overrides) Samples.mixed_overrides eq_refl).
  intros o Hin Hid. vm_compute in Hin. each_member Hin; try discriminate Hid; eauto.
Defined.

Section MappingResolutionMore.
Import PanelUnits.

Lemma first_supplier props o :
  o ∈ props → supplies_mappings o →
  ∃ pre o' post, props = pre ++ o' :: post ∧ supplies_mappings o' ∧
                 ∀ o'', o'' ∈ pre → ¬ supplies_mappings o''.
Proof.
  intros Hin Ho. induction props as [|x props IH]; [by apply elem_of_nil in Hin|].
  destruct (bool_decide (OverrideProperty_Id x = "mappings")
            && not_nil (OverrideProperty_Value x)) eqn:Hx.
  - exists [], x, props. split; [done|]. split.
    + apply andb_true_iff in Hx as [Hid Hv]. split.
      * by apply bool_decide_eq_true_1 in Hid.
      * by apply not_nil_spec.
    + intros o'' Hnil. by apply elem_of_nil in Hnil.
  - assert (¬ supplies_mappings x) as Hno.
    { intros Hs. by rewrite (mappings_guard_true x Hs) in Hx. }
    apply elem_of_cons in Hin as [-> | Hin]; [done|].
    destruct (IH Hin) as (pre & o' & post & -> & Ho' & Hpre).
    exists (x :: pre), o', post. split; [done|]. split; [done|].
    intros o'' Hin'. apply elem_of_cons in Hin' as [-> | Hin']; [done|by apply Hpre].
Qed.

(** [getValueMappings] never panics, and an error it returns is the error
    of decoding the Defaults payload, returned with the value that decode
    left and only when no override property supplies a mapping: the
    overrides themselves never produce an error. *)
Theorem getValueMappings_total (Unmarshal_any : bytes → any * option error) (p : Panel) :
  ∃ v err, getValueMappings Unmarshal_any p = Ret (v, err) ∧
    ∀ e, err = Some e →
      ∃ fc raw, Panel_FieldConfig p = Some fc ∧
                (∀ o, o ∈ properties fc → ¬ supplies_mappings o) ∧
                Defaults_Mappings (FieldConfig_Defaults fc) = Some raw ∧
                Unmarshal_any raw = (v, Some e).
Proof.
  destruct (getValueMappings_returns Unmarshal_any p) as (v & err & Hmap).
  exists v, err. split; [done|]. intros e ->. revert Hmap.
  rewrite getValueMappings_scan.
  destruct (Panel_FieldConfig p) as [fc|]; [|congruence].
  pose proof (scan_mappings_result (properties fc)) as Hscan.
  destruct (range (properties fc) mappings_property ()) as [[]|[v' err]|why] eqn:Hrange;
    [| |done].
  - destruct (Defaults_Mappings (FieldConfig_Defaults fc)) as [raw|] eqn:Hraw; [|congruence].
    intros [= Hdec]. exists fc, raw. split; [done|]. split; [|done].
    intros o Hin Ho.
    destruct (first_supplier (properties fc) o Hin Ho) as (pre & o' & post & Hp & Ho' & Hpre).
    rewrite Hp, (scan_first_mappings pre o' post Ho' Hpre) in Hrange. discriminate Hrange.
  - destruct Hscan as [_ ->]. congruence.
Qed.

(** As soon as one override property supplies a mapping (id "mappings",
    value not null), the Defaults payload is not decoded: the result is a
    non-nil mapping without error, the same whatever the decoder does, even
    on a broken payload. *)
Theorem getValueMappings_override_shadows_defaults
    (p : Panel) (fc : FieldConfig) (o : OverrideProperty) :
  Panel_FieldConfig p = Some fc →
  o ∈ properties fc →
  OverrideProperty_Id o = "mappings" →
  OverrideProperty_Value o ≠ ANil →
  ∃ v, v ≠ ANil ∧
       ∀ Unmarshal_any : bytes → any * option error,
         getValueMappings Unmarshal_any p = Ret (v, None).
Proof.
  intros Hfc Hin Hid Hv.
  destruct (first_supplier (properties fc) o Hin (conj Hid Hv))
    as (pre & o' & post & Hprops & Ho' & Hpre).
  exists (OverrideProperty_Value o'). split; [apply Ho'|].
  intros Unmarshal_any.
  rewrite getValueMappings_scan, Hfc, Hprops.
  by rewrite (scan_first_mappings pre o' post).
Qed.

(** When no override property supplies a mapping (none has id "mappings",
    or those that have hold null), the result is nil without error for a
    panel without Defaults payload, and otherwise what decoding the payload
    gave: the value the decode left together with its error, if any. *)
Theorem getValueMappings_defaults
    (Unmarshal_any : bytes → any * option error) (p : Panel) (fc : FieldConfig) :
  Panel_FieldConfig p = Some fc →
  (∀ o, o ∈ properties fc →
        ¬ (OverrideProperty_Id o = "mappings" ∧ OverrideProperty_Value o ≠ ANil)) →
  getValueMappings Unmarshal_any p =
  match Defaults_Mappings (FieldConfig_Defaults fc) with
  | None => Ret (ANil, None)
  | Some raw => Ret (Unmarshal_any raw)
  end.
Proof.
  intros Hfc Hno. rewrite getValueMappings_scan, Hfc.
  by rewrite (scan_no_mappings (properties fc) Hno).
Qed.
End MappingResolutionMore.

Lemma getValueMappings_override_shadows_defaults_witness :
  ∃ v, v ≠ ANil ∧
       ∀ Unmarshal_any : bytes → any * option error,
         PanelUnits.getValueMappings Unmarshal_any
           (Samples.panel "gauge" Samples.shadowed_defaults) = Ret (v, None).
Proof.
  apply (getValueMappings_override_shadows_defaults
           (Samples.panel "gauge" Samples.shadowed_defaults) Samples.shadowed_defaults
           (Samples.mappings_property Samples.first_mapping) eq_refl).
  - left.
  - reflexivity.
  - discriminate.
Defined.

Lemma getValueMappings_defaults_witness :
  PanelUnits.getValueMappings
    (Samples.answers Samples.mappings_document Samples.first_mapping None) Samples.mapped_graph
  = Ret (Samples.first_mapping, None).
Proof.
  apply (getValueMappings_defaults
           (Samples.answers Samples.mappings_document Samples.first_mapping None)
           Samples.mapped_graph
           (Samples.field_config "xyz" (Some Samples.mappings_document) []) eq_refl).
  intros o Hin. by apply elem_of_nil in Hin.
Defined.

(** * Further facts: the rule *)
Section RuleMore.
Import PanelUnits.
Variable Unmarshal_any : bytes → any * option error.
Variable Unmarshal_StatOptions : bytes → StatOptions + error.

Local Abbreviation mappings_of := (getValueMappings Unmarshal_any).
Local Abbreviation skipped := (stat_reduces_fields Unmarshal_StatOptions).
Local Abbreviation rule := (NewPanelUnitsRule_fn Unmarshal_any Unmarshal_StatOptions).

(** The rule past its two guards, on what the two resolutions gave. *)
Lemma rule_checked d p v err :
  Panel_Type p ∈ unit_panel_types → skipped p = false →
  mappings_of p = Ret (v, err) →
  rule d p =
  let r := match err with Some e => [error_result d p e] | None => [] end in
  if not_nil v then Ret r
  else match getConfiguredUnit p with
       | Panic why => Panic why
       | Ret u => if bool_decide (u ∈ validUnits) then Ret r
                  else Ret (r ++ [error_result d p (no_units_message u)])
       end.
Proof.
  intros Hscope Hskip Hmap. unfold NewPanelUnitsRule_fn.
  rewrite (in_scope_guard p Hscope), Hskip, Hmap. simpl.
  destruct (not_nil v).
  - by destruct err.
  - destruct (getConfiguredUnit p) as [u|why]; simpl; [|done].
    rewrite unit_check_spec. by destruct err, (bool_decide (u ∈ validUnits)).
Qed.

Lemma rule_out_of_scope d p : Panel_Type p ∉ unit_panel_types → rule d p = Ret [].
Proof.
  intros Hout. unfold NewPanelUnitsRule_fn. by rewrite bool_decide_eq_false_2.
Qed.

Lemma rule_skipped d p : skipped p = true → rule d p = Ret [].
Proof.
  intros Hskip. unfold NewPanelUnitsRule_fn. rewrite Hskip. by case_bool_decide.
Qed.

(** A panel passes the rule (no result) in exactly four ways: its type is
    outside the rule's types; it is a stat panel reducing over fields; its
    value mappings resolve without error to a non-nil value; or they
    resolve without error to nil and its resolved unit is in the catalog. *)
Theorem rule_passes_iff (d : Dashboard) (p : Panel) :
  rule d p = Ret [] ↔
  Panel_Type p ∉ unit_panel_types ∨
  skipped p = true ∨
  ∃ v, mappings_of p = Ret (v, None) ∧
       (v ≠ ANil ∨ ∃ u, getConfiguredUnit p = Ret u ∧ u ∈ validUnits).
Proof.
  destruct (decide (Panel_Type p ∈ unit_panel_types)) as [Hscope|Hout];
    [|split; [by left | intros _; by apply rule_out_of_scope]].
  destruct (skipped p) eqn:Hskip;
    [split; [by right; left | intros _; by apply rule_skipped]|].
  destruct (getValueMappings_returns Unmarshal_any p) as (v & err & Hmap).
  rewrite (rule_checked d p v err Hscope Hskip Hmap). simpl. split.
  - intros Hpass. right. right. exists v.
    destruct (not_nil v) eqn:Hv.
    + destruct err; [discriminate Hpass|]. split; [done|]. left. by apply not_nil_spec.
    + destruct (getConfiguredUnit p) as [u|why]; [|discriminate Hpass].
      case_bool_decide as Hu.
      * destruct err; [discriminate Hpass|]. split; [done|]. right. eauto.
      * destruct err; discriminate Hpass.
  - intros [Hout | [Hfalse | (v' & Hmap' & Hok)]]; [done | done |].
    rewrite Hmap in Hmap'. injection Hmap' as -> ->.
    destruct Hok as [Hv | (u & Hunit & Hu)].
    + by rewrite (proj2 (not_nil_spec v') Hv).
    + destruct (not_nil v'); [done|].
      rewrite Hunit. by rewrite bool_decide_eq_true_2.
Qed.

(** The rule panics exactly when it reaches the unit resolution (type in
    scope, not a stat panel reducing over fields, mappings resolved to nil)
    and [getConfiguredUnit] panics: a panel that has a mapping never panics,
    whatever its unit overrides hold. *)
Theorem rule_panics_iff (d : Dashboard) (p : Panel) (why : panic) :
  rule d p = Panic why ↔
  Panel_Type p ∈ unit_panel_types ∧ skipped p = false ∧
  (∃ err, mappings_of p = Ret (ANil, err)) ∧
  getConfiguredUnit p = Panic why.
Proof.
  split.
  - intros Hpanic.
    destruct (decide (Panel_Type p ∈ unit_panel_types)) as [Hscope|Hout];
      [|by rewrite (rule_out_of_scope d p Hout) in Hpanic].
    destruct (skipped p) eqn:Hskip; [by rewrite (rule_skipped d p Hskip) in Hpanic|].
    destruct (getValueMappings_returns Unmarshal_any p) as (v & err & Hmap).
    rewrite (rule_checked d p v err Hscope Hskip Hmap) in Hpanic. simpl in Hpanic.
    destruct (not_nil v) eqn:Hv; [discriminate Hpanic|].
    destruct v; try discriminate Hv.
    destruct (getConfiguredUnit p) as [u|why'].
    + by destruct (bool_decide (u ∈ validUnits)).
    + injection Hpanic as ->. eauto.
  - intros (Hscope & Hskip & (err & Hmap) & Hunit).
    rewrite (rule_checked d p ANil err Hscope Hskip Hmap). simpl. by rewrite Hunit.
Qed.

(** Whenever the rule returns it returns at most two results, and each of
    them is an Error about the dashboard and the panel it was given. *)
Theorem rule_results_bounded (d : Dashboard) (p : Panel) (rs : PanelRuleResults) :
  rule d p = Ret rs →
  length rs ≤ 2 ∧
  ∀ r, r ∈ rs →
       Result_Severity r = Lint.Error ∧ Result_Dashboard r = d ∧ Result_Panel r = p.
Proof.
  destruct (decide (Panel_Type p ∈ unit_panel_types)) as [Hscope|Hout];
    [|rewrite (rule_out_of_scope d p Hout); intros [= <-]; split;
      [simpl; lia | intros r Hin; by apply elem_of_nil in Hin]].
  destruct (skipped p) eqn:Hskip;
    [rewrite (rule_skipped d p Hskip); intros [= <-]; split;
      [simpl; lia | intros r Hin; by apply elem_of_nil in Hin]|].
  destruct (getValueMappings_returns Unmarshal_any p) as (v & err & Hmap).
  rewrite (rule_checked d p v err Hscope Hskip Hmap). simpl.
  destruct (not_nil v); [|destruct (getConfiguredUnit p) as [u|why]; [|discriminate];
                          destruct (bool_decide (u ∈ validUnits))];
    destruct err; intros [= <-]; simpl;
    (split; [lia | intros r Hin; each_member Hin; done]).
Qed.

(** A stat panel whose options decode to reduce-options with a non-empty
    "fields" selector yields no result and nothing else of it is looked at:
    neither its mappings nor its unit overrides, even ones on which the unit
    resolution would panic. *)
Theorem rule_skips_reducing_stat (d : Dashboard) (p : Panel) (opts : StatOptions) :
  Panel_Type p = "stat" →
  Unmarshal_StatOptions (Panel_Options p) = inl opts →
  ReduceOptions_Fields (StatOptions_ReduceOptions opts) ≠ "" →
  rule d p = Ret [].
Proof.
  intros Hty Hopts Hfields. apply rule_skipped.
  unfold stat_reduces_fields, hasReduceOptionsNonNumericFields.
  rewrite Hty, Hopts. simpl. by apply bool_decide_eq_true_2.
Qed.

(** For a panel that reaches the unit check without mappings and without
    error, the verdict depends on the resolved unit alone: no result when it
    is in the catalog, and otherwise exactly one Error whose message quotes
    it, the empty string included. *)
Theorem rule_unit_verdict (d : Dashboard) (p : Panel) (u : string) :
  Panel_Type p ∈ unit_panel_types →
  skipped p = false →
  mappings_of p = Ret (ANil, None) →
  getConfiguredUnit p = Ret u →
  rule d p
  = Ret (if bool_decide (u ∈ validUnits) then []
         else [ {| Result_Dashboard := d; Result_Panel := p;
                   Result_Severity := Lint.Error;
                   Result_Message :=
                     "has no or invalid units defined: '" +:+ u +:+ "'" |} ]).
Proof.
  intros Hscope Hskip Hmap Hunit.
  rewrite (rule_checked d p ANil None Hscope Hskip Hmap). simpl. rewrite Hunit.
  by case_bool_decide.
Qed.

(** A panel without field config does not make the rule fail: in scope
    and not skipped, it gets the one Error for the empty unit. *)
Theorem rule_without_FieldConfig (d : Dashboard) (p : Panel) :
  Panel_FieldConfig p = None →
  Panel_Type p ∈ unit_panel_types →
  skipped p = false →
  rule d p = Ret [error_result d p "has no or invalid units defined: ''"].
Proof.
  intros Hfc Hscope Hskip.
  assert (mappings_of p = Ret (ANil, None)) as Hmap.
  { unfold getValueMappings. by rewrite Hfc. }
  assert (getConfiguredUnit p = Ret "") as Hunit.
  { unfold getConfiguredUnit. by rewrite Hfc. }
  rewrite (rule_checked d p ANil None Hscope Hskip Hmap). simpl. rewrite Hunit.
  by rewrite (bool_decide_eq_false_2 _ empty_not_valid).
Qed.
End RuleMore.

Lemma rule_results_bounded_witness :
  length [ PanelUnits.error_result Samples.row_dashboard Samples.broken_mappings
             "invalid character 'x' looking for beginning of value";
           PanelUnits.error_result Samples.row_dashboard Samples.broken_mappings
             "has no or invalid units defined: ''" ] ≤ 2 ∧
  ∀ r, r ∈ [ PanelUnits.error_result Samples.row_dashboard Samples.broken_mappings
               "invalid character 'x' looking for beginning of value";
             PanelUnits.error_result Samples.row_dashboard Samples.broken_mappings
               "has no or invalid units defined: ''" ] →
       PanelUnits.Result_Severity r = Lint.Error ∧
       PanelUnits.Result_Dashboard r = Samples.row_dashboard ∧
       PanelUnits.Result_Panel r = Samples.broken_mappings.
Proof.
  exact (rule_results_bounded Samples.refuses Samples.no_StatOptions
           Samples.row_dashboard Samples.broken_mappings _ eq_refl).
Defined.

Lemma rule_skips_reducing_stat_witness :
  PanelUnits.NewPanelUnitsRule_fn Samples.refuses
    (Samples.reads Samples.reduce_document Samples.reduce_options)
    Samples.row_dashboard Samples.reducing_stat = Ret [] ∧
  PanelUnits.getConfiguredUnit Samples.reducing_stat = Panic TypeAssertion.
Proof.
  split; [|reflexivity].
  apply (rule_skips_reducing_stat Samples.refuses
           (Samples.reads Samples.reduce_document Samples.reduce_options)
           Samples.row_dashboard Samples.reducing_stat Samples.reduce_options).
  - reflexivity.
  - reflexivity.
  - discriminate.
Defined.

Lemma xyz_not_valid : "xyz" ∉ PanelUnits.validUnits.
Proof.
  apply (bool_decide_eq_false_1 ("xyz" ∈ PanelUnits.validUnits)). vm_compute. reflexivity.
Qed.

Lemma rule_unit_verdict_witness :
  PanelUnits.NewPanelUnitsRule_fn Samples.refuses Samples.no_StatOptions
    Samples.row_dashboard (Samples.gauge "xyz")
  = Ret [ PanelUnits.error_result Samples.row_dashboard (Samples.gauge "xyz")
            "has no or invalid units defined: 'xyz'" ].
Proof.
  rewrite (rule_unit_verdict Samples.refuses Samples.no_StatOptions
             Samples.row_dashboard (Samples.gauge "xyz") "xyz"
             gauge_in_scope eq_refl eq_refl eq_refl).
  by rewrite (bool_decide_eq_false_2 _ xyz_not_valid).
Defined.

Lemma rule_without_FieldConfig_witness :
  PanelUnits.NewPanelUnitsRule_fn Samples.refuses Samples.no_StatOptions
    Samples.row_dashboard Samples.bare_gauge
  = Ret [ PanelUnits.error_result Samples.row_dashboard Samples.bare_gauge
            "has no or invalid units defined: ''" ].
Proof.
  apply (rule_without_FieldConfig Samples.refuses Samples.no_StatOptions
           Samples.row_dashboard Samples.bare_gauge eq_refl gauge_in_scope eq_refl).
Defined.
